(** * TCSS460 phase 2: login, pagination and message routes

    A shallow embedding of the Express handlers of
    [src/routes/auth/login.ts] (the sign-in router) and of the closed
    message router ([/c/message]: offset and cursor pagination, create,
    delete), and the properties of their responses.

    Conventions of the embedding:
    - a JavaScript value is a [JsValue]; a plain object (a result row,
      [request.body], [request.query]) is a finite map from property names
      to values, so that the spread [{...row, formatted}] is an insertion and
      the rest pattern [({demoid, ...rest}) => rest] is a deletion;
    - the numbers that travel between the handlers and PostgreSQL (ids, row
      counts, page sizes) are integers, [Z]; [NaN] is [None];
    - a handler is a computation in [Eff]: it leaves a trace of the effects
      it performs (console output, queries, hashing, token signing) and either
      returns the response it sent or throws;
    - what the routers import from [core/utilities] ([pool],
      [validationFunctions], [credentialingFunctions]) and the process
      environment are parameters of the handlers. *)

From stdpp Require Import base strings gmap list sorting pretty.
From Stdlib Require Import Ascii ZArith QArith Lia.

Open Scope Z_scope.

(** ** Values and objects *)

Inductive JsValue : Type :=
| JsUndefined
| JsNull
| JsBool (b : bool)
| JsNumber (n : Z)
| JsString (s : string).

#[global] Instance JsValue_eq_dec : EqDecision JsValue.
Proof. solve_decision. Defined.

#[global] Instance JsValue_inhabited : Inhabited JsValue := populate JsUndefined.

(** Property access [o.k]: a missing property reads as [undefined]. *)
Definition get (o : gmap string JsValue) (k : string) : JsValue :=
  default JsUndefined (o !! k).

(** [ToString], as a template literal applies it to an interpolated value.
    A number is printed in plain decimal digits, as the language does below
    10^21 (from there on it prints an exponent). *)
Definition toString (v : JsValue) : string :=
  match v with
  | JsUndefined => "undefined"
  | JsNull => "null"
  | JsBool true => "true"
  | JsBool false => "false"
  | JsNumber n => pretty n
  | JsString s => s
  end.

(** Strict equality [a === b]. *)
Definition strict_eq (a b : JsValue) : bool := bool_decide (a = b).

(** ** [String.prototype.endsWith] *)

Definition endsWith (s suffix : string) : bool :=
  String.prefix (String.rev suffix) (String.rev s).

(** ** [parseInt] with no radix argument

    Leading white space is skipped, a sign is read, a [0x] prefix selects
    radix 16, and the longest run of digits is converted; with no digit the
    result is [NaN]. *)

Definition is_space (c : ascii) : bool :=
  let n := nat_of_ascii c in
  ((9 <=? n) && (n <=? 13))%nat || (n =? 32)%nat.

Fixpoint skip_spaces (s : string) : string :=
  match s with
  | String c rest => if is_space c then skip_spaces rest else s
  | EmptyString => s
  end.

Definition digit_value (c : ascii) : option Z :=
  let n := Z.of_nat (nat_of_ascii c) in
  if (48 <=? n) && (n <=? 57) then Some (n - 48)
  else if (97 <=? n) && (n <=? 122) then Some (n - 87)
  else if (65 <=? n) && (n <=? 90) then Some (n - 55)
  else None.

(** The digits of [s] read left to right in [radix], starting from the
    accumulator [acc]; [seen] records whether a digit was consumed. *)
Fixpoint read_digits (radix : Z) (s : string) (seen : bool) (acc : Z) : option Z :=
  match s with
  | String c rest =>
      match digit_value c with
      | Some d =>
          if d <? radix then read_digits radix rest true (acc * radix + d)
          else if seen then Some acc else None
      | None => if seen then Some acc else None
      end
  | EmptyString => if seen then Some acc else None
  end.

Definition strip_hex_prefix (s : string) : option string :=
  match s with
  | String "0"%char (String "x"%char rest) => Some rest
  | String "0"%char (String "X"%char rest) => Some rest
  | _ => None
  end.

Definition parseInt_string (input : string) : option Z :=
  let s := skip_spaces input in
  let '(sign, s) :=
    match s with
    | String "-"%char rest => (-1, rest)
    | String "+"%char rest => (1, rest)
    | _ => (1, s)
    end in
  let magnitude :=
    match strip_hex_prefix s with
    | Some rest => read_digits 16 rest false 0
    | None => read_digits 10 s false 0
    end in
  Z.mul sign <$> magnitude.

Definition parseInt (v : JsValue) : option Z := parseInt_string (toString v).

(** [x >= n] and [x <= n] for a possibly-[NaN] left operand. *)
Definition num_ge (x : option Z) (n : Z) : bool :=
  match x with Some a => n <=? a | None => false end.

Definition num_le (x : option Z) (n : Z) : bool :=
  match x with Some a => a <=? n | None => false end.

(** ** Addition of numbers

    A number of the language is a double. An integer below 2^53 in magnitude
    is a double as it stands; a larger one is rounded to 53 significant bits,
    to the nearest and on a tie to the even one. [js_add] is [x + y] of the
    language on integer values: the exact sum, rounded (the sums of this
    development stay far below the overflow threshold of doubles). *)
Definition round_double (z : Z) : Z :=
  if Z.abs z <=? 2 ^ 53 then z
  else
    let ulp := 2 ^ (Z.log2 (Z.abs z) - 52) in
    let down := Z.abs z / ulp in
    let rest := Z.abs z mod ulp in
    let nearest :=
      if 2 * rest <? ulp then down
      else if ulp <? 2 * rest then down + 1
      else if Z.even down then down else down + 1 in
    Z.sgn z * (nearest * ulp).

Definition js_add (x y : Z) : Z := round_double (x + y).

Arguments js_add : simpl never.

(** ** Errors, effects and the handler monad *)

(** What a handler can see thrown: a PostgreSQL error, of which the routes
    read [error.detail], or a [TypeError] of the language. *)
Inductive JsError : Type :=
| DatabaseError (message : string) (detail : option string)
| TypeError (message : string).

(** The statements the routers send to [pool.query].
    - [SelectOffsetPage]: SELECT name, message, priority FROM Demo
      ORDER BY DemoID LIMIT $1 OFFSET $2
    - [SelectCursorPage]: SELECT name, message, priority, DemoID FROM Demo
      WHERE DemoID > $2 ORDER BY DemoID LIMIT $1
    - [CountDemo]: SELECT count( * ) AS exact_count FROM demo
    - [InsertDemo]: INSERT INTO DEMO(Name, Message, Priority)
      VALUES ($1, $2, $3) RETURNING *
    - [DeleteDemo]: DELETE FROM Demo WHERE name = $1 RETURNING *
    - [SelectCredential]: SELECT salted_hash, salt, account_id, email,
      firstname, lastname, phone, username, account_role FROM
      Account_Credential INNER JOIN Account ... WHERE Account.email=$1 *)
Inductive Sql : Type :=
| SelectOffsetPage
| SelectCursorPage
| CountDemo
| InsertDemo
| DeleteDemo
| SelectCredential.

#[global] Instance Sql_eq_dec : EqDecision Sql.
Proof. solve_decision. Defined.

Record QueryResult : Type := mkResult {
  rowCount : Z;
  rows : list (gmap string JsValue)
}.

Inductive PoolOutcome : Type :=
| Resolves (result : QueryResult)
| Rejects (error : JsError).

(** A signed token, kept symbolic: what [jwt.sign] was given. *)
Record Token : Type := mkToken {
  payload : gmap string JsValue;
  secretOrPrivateKey : JsValue;
  expiresIn : string
}.

Inductive LogArg : Type :=
| LogText (s : string)
| LogError (e : JsError).

Inductive Event : Type :=
| ConsoleError (what : LogArg)
| PoolQuery (statement : Sql) (values : list JsValue)
| GenerateHash (password salt : JsValue)
| JwtSign (token : Token).

Inductive Completion (A : Type) : Type :=
| Returned (a : A)
| Thrown (e : JsError).

Arguments Returned {A} a.
Arguments Thrown {A} e.

Definition Eff (A : Type) : Type := (list Event * Completion A)%type.

#[global] Instance Eff_ret : MRet Eff := λ A a, ([], Returned a).

#[global] Instance Eff_bind : MBind Eff := λ A B f m,
  match m with
  | (t, Returned a) => let '(t', r) := f a in (t ++ t', r)
  | (t, Thrown e) => (t, Thrown e)
  end.

Definition throw {A : Type} (e : JsError) : Eff A := ([], Thrown e).

Definition emit (ev : Event) : Eff unit := ([ev], Returned tt).

Definition console_error (what : LogArg) : Eff unit := emit (ConsoleError what).

(** [try { body } catch (error) { handler }], and equally
    [promise.then(...).catch(handler)]. *)
Definition try_catch {A : Type} (body : Eff A) (handler : JsError → Eff A) : Eff A :=
  match body with
  | (t, Returned a) => (t, Returned a)
  | (t, Thrown e) => let '(t', r) := handler e in (t ++ t', r)
  end.

Definition trace {A : Type} (m : Eff A) : list Event := fst m.
Definition completion {A : Type} (m : Eff A) : Completion A := snd m.

(** [Array.prototype.reduce] called without an initial value. *)
Definition reduce {A : Type} (callback : A → A → A) (array : list A) : Eff A :=
  match array with
  | [] => throw (TypeError "Reduce of empty array with no initial value")
  | first :: rest => mret (fold_left callback rest first)
  end.

(** [rows[0].k]: reading a property of [undefined] throws. *)
Definition first_row (rs : list (gmap string JsValue)) : Eff (gmap string JsValue) :=
  match rs with
  | r :: _ => mret r
  | [] => throw (TypeError "Cannot read properties of undefined")
  end.

(** ** Requests and responses *)

Record Request : Type := mkRequest {
  req_query : gmap string JsValue;
  req_body : gmap string JsValue;
  req_params : gmap string JsValue
}.

Inductive Body : Type :=
| MessageBody (message : string)
| OffsetBody (entries : list (gmap string JsValue))
    (totalRecords : JsValue) (limit offset nextPage : Z)
| CursorBody (entries : list (gmap string JsValue))
    (totalRecords : JsValue) (limit : Z) (cursor : JsValue)
| EntryBody (entry : gmap string JsValue)
| DeletedBody (entry : string)
| LoginBody (accessToken : Token) (user : gmap string JsValue).

Record Response : Type := mkResponse {
  res_status : Z;
  res_body : Body
}.

(** [response.status(code).send(body)]; [response.send] and [response.json]
    alone answer with status 200. *)
Definition send (code : Z) (b : Body) : Eff Response := mret (mkResponse code b).

(** A middleware either calls [next()] ([None]) or answers. *)
Definition next : Eff (option Response) := mret None.

Definition answer (code : Z) (b : Body) : Eff (option Response) :=
  mret (Some (mkResponse code b)).

Definition chain (gate : Eff (option Response)) (rest : Eff Response) : Eff Response :=
  r ← gate; match r with Some resp => mret resp | None => rest end.

(** ** The formatter of the message router *)

(** The template literal of [format]. *)
Definition formatted (resultRow : gmap string JsValue) : string :=
  "{" +:+ toString (get resultRow "priority") +:+ "} - ["
      +:+ toString (get resultRow "name") +:+ "] says: "
      +:+ toString (get resultRow "message").

Definition format (resultRow : gmap string JsValue) : gmap string JsValue :=
  <["formatted" := JsString (formatted resultRow)]> resultRow.

(** * The routers *)

Section Routers.

(** [validationFunctions.isStringProvided], [.isNumberProvided] and
    [credentialingFunctions.generateHash] of [core/utilities]. *)
Variable isStringProvided : JsValue → bool.
Variable isNumberProvided : JsValue → bool.
Variable generateHash : JsValue → JsValue → JsValue.

(** The conversion of a string to a number, as the unary [+] applies it. *)
Variable stringToNumber : string → option Z.

(** [key.secret], read from [process.env.JSON_WEB_TOKEN]. *)
Variable secret : JsValue.

(** [pool.query(statement, values)]: the promise resolves or rejects. *)
Variable pool : Sql → list JsValue → PoolOutcome.

Definition pool_query (statement : Sql) (values : list JsValue) : Eff QueryResult :=
  _ ← emit (PoolQuery statement values);
  match pool statement values with
  | Resolves result => mret result
  | Rejects error => throw error
  end.

(** The unary plus, [+candidate], on the values it sends to an integer or to
    [NaN]; a numeral with a fraction has no value here. *)
Definition unary_plus (candidate : JsValue) : option Z :=
  match candidate with
  | JsUndefined => None
  | JsNull => Some 0
  | JsBool b => Some (if b then 1 else 0)
  | JsNumber n => Some n
  | JsString s => stringToNumber s
  end.

(** [id > max] on values: two strings compare as strings, anything else
    as numbers, and a comparison with [NaN] is false. *)
Definition js_gt (a b : JsValue) : bool :=
  match a, b with
  | JsString s, JsString t => String.ltb t s
  | _, _ =>
      match unary_plus a, unary_plus b with
      | Some x, Some y => y <? x
      | _, _ => false
      end
  end.

(** [isNumberProvided(candidate) && admits(+candidate) ? +candidate : fallback],
    the pattern of every query parameter of the pagination routes. *)
Definition query_number (candidate : JsValue) (admits : Z → bool) (fallback : Z) : Z :=
  match unary_plus candidate with
  | Some n => if isNumberProvided candidate && admits n then n else fallback
  | None => fallback
  end.

(** ** GET /offset *)

(** [limit]: positive, else 10; [offset] and [cursor]: not negative, else 0
    (generated ids start at 1, so 0 is a valid starting cursor). *)
Definition limit_of (request : Request) : Z :=
  query_number (get (req_query request) "limit") (λ n, 0 <? n) 10.

Definition offset_of (request : Request) : Z :=
  query_number (get (req_query request) "offset") (λ n, 0 <=? n) 0.

Definition cursor_of (request : Request) : Z :=
  query_number (get (req_query request) "cursor") (λ n, 0 <=? n) 0.

Definition get_offset (request : Request) : Eff Response :=
  let limit := limit_of request in
  let offset := offset_of request in
  let values := [JsNumber limit; JsNumber offset] in
  page ← pool_query SelectOffsetPage values;
  result ← pool_query CountDemo [];
  first ← first_row (rows result);
  let count := get first "exact_count" in
  send 200 (OffsetBody (format <$> rows page) count limit offset (js_add limit offset)).

(** ** GET /cursor *)

Definition get_cursor (request : Request) : Eff Response :=
  let limit := limit_of request in
  let cursor := cursor_of request in
  let values := [JsNumber limit; JsNumber cursor] in
  page ← pool_query SelectCursorPage values;
  result ← pool_query CountDemo [];
  first ← first_row (rows result);
  let count := get first "exact_count" in
  let entries := format <$> (delete "demoid" <$> rows page) in
  newCursor ← reduce (λ max id, if js_gt id max then id else max)
                     ((λ row, get row "demoid") <$> rows page);
  send 200 (CursorBody entries count limit newCursor).

(** ** POST / *)

Definition post_check_strings (request : Request) : Eff (option Response) :=
  if isStringProvided (get (req_body request) "name")
     && isStringProvided (get (req_body request) "message")
  then next
  else
    _ ← console_error (LogText "Missing required information");
    answer 400 (MessageBody
      "Missing required information - please refer to documentation").

Definition post_check_priority (request : Request) : Eff (option Response) :=
  let priority := get (req_body request) "priority" in
  if isNumberProvided priority
     && num_ge (parseInt priority) 1
     && num_le (parseInt priority) 3
  then next
  else
    _ ← console_error (LogText "Invalid or missing Priority");
    answer 400 (MessageBody
      "Invalid or missing Priority - please refer to documentation").

(** [error.detail && error.detail.endsWith('exists.')]: only a database
    error carries a detail, and an empty detail is falsy. *)
Definition error_detail (error : JsError) : option string :=
  match error with
  | DatabaseError _ detail => detail
  | TypeError _ => None
  end.

Definition name_exists (error : JsError) : bool :=
  match error_detail error with
  | Some detail => negb (String.eqb detail "") && endsWith detail "exists."
  | None => false
  end.

Definition post_insert (request : Request) : Eff Response :=
  let values := [get (req_body request) "name";
                 get (req_body request) "message";
                 get (req_body request) "priority"] in
  try_catch
    (result ← pool_query InsertDemo values;
     row ← first_row (rows result);
     send 201 (EntryBody (format row)))
    (λ error,
       if name_exists error
       then
         _ ← console_error (LogText "Name exists");
         send 400 (MessageBody "Name exists")
       else
         _ ← console_error (LogText "DB Query error on POST");
         _ ← console_error (LogError error);
         send 500 (MessageBody "server error - contact support")).

Definition post_message (request : Request) : Eff Response :=
  chain (post_check_strings request)
    (chain (post_check_priority request) (post_insert request)).

(** ** DELETE /:name *)

Definition delete_message (request : Request) : Eff Response :=
  let values := [get (req_params request) "name"] in
  try_catch
    (result ← pool_query DeleteDemo values;
     if rowCount result =? 1
     then
       row ← first_row (rows result);
       send 200 (DeletedBody ("Deleted: " +:+ toString (get (format row) "formatted")))
     else
       send 404 (MessageBody "Name not found"))
    (λ error,
       _ ← console_error (LogText "DB Query error on DELETE /:name");
       _ ← console_error (LogError error);
       send 500 (MessageBody "server error - contact support")).

(** ** POST /login *)

Definition login_check_strings (request : Request) : Eff (option Response) :=
  if isStringProvided (get (req_body request) "email")
     && isStringProvided (get (req_body request) "password")
  then next
  else answer 400 (MessageBody "Missing required information").

(** [jwt.sign(payload, key.secret, { expiresIn })], with a secret that is
    set: the library refuses an unset or empty secret by throwing, and the
    rejection handler of the route then answers 500. *)
Definition jwt_sign (claims : gmap string JsValue) (key : JsValue) (lifetime : string)
  : Eff Token :=
  let token := mkToken claims key lifetime in
  _ ← emit (JwtSign token);
  mret token.

Definition login_then (request : Request) (result : QueryResult) : Eff Response :=
  if rowCount result =? 0 then
    _ ← console_error (LogText "User not found");
    send 400 (MessageBody "Invalid Credentials")
  else if 1 <? rowCount result then
    _ ← console_error
          (LogText "DB Query error on sign in: too many results returned");
    send 500 (MessageBody "server error - contact support")
  else
    row ← first_row (rows result);
    let salt := get row "salt" in
    let storedSaltedHash := get row "salted_hash" in
    _ ← emit (GenerateHash (get (req_body request) "password") salt);
    let providedSaltedHash := generateHash (get (req_body request) "password") salt in
    if strict_eq storedSaltedHash providedSaltedHash then
      accessToken ← jwt_sign
        (<["name" := get row "firstname"]>
           (<["role" := get row "account_role"]>
              (<["id" := get row "account_id"]> ∅)))
        secret "14 days";
      send 200 (LoginBody accessToken
        (<["id" := get row "account_id"]>
           (<["email" := get row "email"]>
              (<["name" := get row "firstname"]>
                 (<["role" := JsString "Admin"]> ∅)))))
    else
      _ ← console_error (LogText "Credentials did not match");
      send 400 (MessageBody "Invalid Credentials").

Definition login_lookup (request : Request) : Eff Response :=
  let values := [get (req_body request) "email"] in
  try_catch
    (result ← pool_query SelectCredential values;
     login_then request result)
    (λ error,
       _ ← console_error (LogText "DB Query error on sign in");
       _ ← console_error (LogError error);
       send 500 (MessageBody "server error - contact support")).

Definition post_login (request : Request) : Eff Response :=
  chain (login_check_strings request) (login_lookup request).

End Routers.

(** * The store behind [pool] *)

(** Modelled from the spec: the Demo table of the data model (the schema is
    not part of the routers). A record has an auto-increment id assigned by
    the store and never reused, a unique name, a message and a priority. *)
Record DemoRecord : Type := mkDemo {
  demo_id : Z;
  demo_name : string;
  demo_message : string;
  demo_priority : Z
}.

#[global] Instance DemoRecord_eq_dec : EqDecision DemoRecord.
Proof. solve_decision. Defined.

(** Modelled from the spec: the state of the store, as far as the statements
    of the routers read it: the Demo table with its id sequence, and the rows
    of Account_Credential joined with Account. *)
Record Store : Type := mkStore {
  nextId : Z;
  demo : list DemoRecord;
  credentials : list (gmap string JsValue)
}.

(** The columns [name, message, priority] of a record, then all of them;
    the field names of a result row are lower case. *)
Definition row_public (r : DemoRecord) : gmap string JsValue :=
  <["name" := JsString (demo_name r)]>
    (<["message" := JsString (demo_message r)]>
       (<["priority" := JsNumber (demo_priority r)]> ∅)).

Definition row_full (r : DemoRecord) : gmap string JsValue :=
  <["demoid" := JsNumber (demo_id r)]> (row_public r).

(** ORDER BY DemoID *)
Fixpoint insert_by_id (r : DemoRecord) (sorted : list DemoRecord) : list DemoRecord :=
  match sorted with
  | [] => [r]
  | r' :: rest =>
      if demo_id r <=? demo_id r' then r :: sorted
      else r' :: insert_by_id r rest
  end.

Definition order_by_id (table : list DemoRecord) : list DemoRecord :=
  foldr insert_by_id [] table.

Definition result_of (rs : list (gmap string JsValue)) : QueryResult :=
  mkResult (Z.of_nat (length rs)) rs.

(** A value bound to an integer column. *)
Definition pg_integer (v : JsValue) : option Z :=
  match v with
  | JsNumber n => Some n
  | JsString s =>
      match parseInt_string s with
      | Some n => if String.eqb (pretty n) s then Some n else None
      | None => None
      end
  | _ => None
  end.

(** Modelled from the spec: what the store answers to each statement of the
    routers. *)
Definition store_pool (db : Store) (statement : Sql) (values : list JsValue)
  : PoolOutcome :=
  match statement, values with
  | SelectOffsetPage, [JsNumber limit; JsNumber offset] =>
      if (limit <? 0) || (offset <? 0)
      then Rejects (DatabaseError "LIMIT and OFFSET must not be negative" None)
      else Resolves (result_of
        (row_public <$> take (Z.to_nat limit)
                          (drop (Z.to_nat offset) (order_by_id (demo db)))))
  | SelectCursorPage, [JsNumber limit; JsNumber cursor] =>
      if limit <? 0
      then Rejects (DatabaseError "LIMIT must not be negative" None)
      else Resolves (result_of
        (row_full <$> take (Z.to_nat limit)
                        (order_by_id (filter (λ r, cursor < demo_id r) (demo db)))))
  | CountDemo, [] =>
      Resolves (result_of
        [ {[ "exact_count" := JsString (pretty (Z.of_nat (length (demo db)))) ]} ])
  | InsertDemo, [JsString n; JsString m; p] =>
      match pg_integer p with
      | None =>
          Rejects (DatabaseError "invalid input syntax for type integer" None)
      | Some k =>
          if bool_decide (n ∈ demo_name <$> demo db)
          then Rejects (DatabaseError
                 "duplicate key value violates unique constraint"
                 (Some ("Key (name)=(" +:+ n +:+ ") already exists.")))
          else Resolves (result_of [row_full (mkDemo (nextId db) n m k)])
      end
  | DeleteDemo, [JsString n] =>
      Resolves (result_of (row_full <$> filter (λ r, demo_name r = n) (demo db)))
  | SelectCredential, [email] =>
      Resolves (result_of (filter (λ row, get row "email" = email) (credentials db)))
  | _, _ => Rejects (DatabaseError "could not bind the parameters" None)
  end.

(** * The utilities, for the examples *)

(** Modelled from the spec: [validationFunctions.isStringProvided], which
    holds of a non-empty string. *)
Definition isStringProvided_model (candidate : JsValue) : bool :=
  match candidate with
  | JsString s => negb (String.eqb s "")
  | _ => false
  end.

(** The value of a decimal numeral: an optional sign, digits, and an
    optional fraction. *)
Fixpoint all_digits (s : string) (acc : Z) : option Z :=
  match s with
  | EmptyString => Some acc
  | String c rest =>
      match digit_value c with
      | Some d => if d <? 10 then all_digits rest (acc * 10 + d) else None
      | None => None
      end
  end.

Fixpoint split_point (s : string) : string * option string :=
  match s with
  | EmptyString => (EmptyString, None)
  | String c rest =>
      if Ascii.eqb c "."%char then (EmptyString, Some rest)
      else let '(whole, fraction) := split_point rest in (String c whole, fraction)
  end.

Definition decimal_value (s : string) : option Q :=
  let '(sign, digits) :=
    match s with
    | String "-"%char rest => (-1, rest)
    | String "+"%char rest => (1, rest)
    | _ => (1, s)
    end in
  let '(whole, fraction) := split_point digits in
  let fraction := default EmptyString fraction in
  if String.eqb (whole +:+ fraction) "" then None
  else
    match all_digits (whole +:+ fraction) 0 with
    | Some n => Some (Qmake (sign * n) (Z.to_pos (10 ^ Z.of_nat (String.length fraction))))
    | None => None
    end.

(** Modelled from the spec: [validationFunctions.isNumberProvided], which
    holds of a numeric value: a number, or a string that is a numeral. *)
Definition isNumberProvided_model (candidate : JsValue) : bool :=
  match candidate with
  | JsNumber _ => true
  | JsString s => bool_decide (is_Some (decimal_value s))
  | _ => false
  end.

(** The unary plus on the strings that are integer numerals. *)
Definition stringToNumber_model (s : string) : option Z :=
  pg_integer (JsString s).

(** Modelled from the spec: [credentialingFunctions.generateHash], a pure
    function of the password and the salt; the digest is kept symbolic. *)
Definition generateHash_model (password salt : JsValue) : JsValue :=
  JsString ("sha256(" +:+ toString password +:+ toString salt +:+ ")").

(** * Example data *)

Definition alice : gmap string JsValue :=
  <["account_id" := JsNumber 7]>
    (<["email" := JsString "alice@uw.edu"]>
       (<["firstname" := JsString "Alice"]>
          (<["account_role" := JsString "User"]>
             (<["salt" := JsString "s4lt"]>
                (<["salted_hash" :=
                     generateHash_model (JsString "correct horse") (JsString "s4lt")]> ∅))))).

Definition example_store : Store :=
  mkStore 4
    [mkDemo 2 "B" "second" 1; mkDemo 1 "A" "hi" 2; mkDemo 3 "C" "third" 3]
    [alice].

Definition empty_store : Store := mkStore 1 [] [].

Definition query_request (q : list (string * JsValue)) : Request :=
  mkRequest (list_to_map q) ∅ ∅.

Definition body_request (b : list (string * JsValue)) : Request :=
  mkRequest ∅ (list_to_map b) ∅.

Definition params_request (p : list (string * JsValue)) : Request :=
  mkRequest ∅ ∅ (list_to_map p).

(** A table without the uniqueness constraint on names, and two credential
    rows for one email. *)
Definition duplicated_store : Store :=
  mkStore 3
    [mkDemo 1 "dup" "one" 1; mkDemo 2 "dup" "two" 2]
    [alice; alice].

Definition run_get_offset (db : Store) (q : list (string * JsValue)) : Eff Response :=
  get_offset isNumberProvided_model stringToNumber_model (store_pool db) (query_request q).

Definition run_get_cursor (db : Store) (q : list (string * JsValue)) : Eff Response :=
  get_cursor isNumberProvided_model stringToNumber_model (store_pool db) (query_request q).

Definition run_post_message (db : Store) (b : list (string * JsValue)) : Eff Response :=
  post_message isStringProvided_model isNumberProvided_model (store_pool db) (body_request b).

Definition run_delete_message (db : Store) (name : string) : Eff Response :=
  delete_message (store_pool db) (params_request [("name", JsString name)]).

Definition run_post_login (db : Store) (email password : string) : Eff Response :=
  post_login isStringProvided_model generateHash_model (JsString "secret")
    (store_pool db)
    (body_request [("email", JsString email); ("password", JsString password)]).

(** A pool that is down: every query rejects. *)
Definition failing_pool (statement : Sql) (values : list JsValue) : PoolOutcome :=
  Rejects (DatabaseError "connection terminated unexpectedly" None).

(** * Vocabulary of the statements *)

(** The largest of the ids [first :: rest]. *)
Definition largest (first : Z) (rest : list Z) : Z := fold_left Z.max rest first.

(** The effects of credential verification and token issuance. *)
Definition verifies_or_signs (ev : Event) : bool :=
  match ev with
  | GenerateHash _ _ | JwtSign _ => true
  | _ => false
  end.

(** The three fixed answers of the error paths. *)
Definition server_error : Response :=
  mkResponse 500 (MessageBody "server error - contact support").

Definition invalid_credentials : Response :=
  mkResponse 400 (MessageBody "Invalid Credentials").

Definition name_not_found : Response :=
  mkResponse 404 (MessageBody "Name not found").





(** A string of decimal digits. *)
Fixpoint decimal_digits (s : string) : Prop :=
  match s with
  | EmptyString => True
  | String c rest => (∃ d, (d < 10)%N ∧ c = pretty_N_char d) ∧ decimal_digits rest
  end.

(** * Properties of the routers *)

(** ** The handler monad *)

Lemma bind_returned {A B : Type} (t : list Event) (a : A) (k : A → Eff B) :
  ((t, Returned a) ≫= k) = (t ++ trace (k a), completion (k a)).
Proof. unfold mbind, Eff_bind, trace, completion. by destruct (k a). Qed.

Lemma ret_bind {A B : Type} (a : A) (k : A → Eff B) : (mret a ≫= k) = k a.
Proof. unfold mret, Eff_ret, mbind, Eff_bind. simpl. by destruct (k a). Qed.

Lemma bind_thrown {A B : Type} (t : list Event) (e : JsError) (k : A → Eff B) :
  ((t, Thrown e) ≫= k) = (t, Thrown e).
Proof. reflexivity. Qed.

Lemma eff_eta {A : Type} (m : Eff A) : (trace m, completion m) = m.
Proof. by destruct m. Qed.

(** ** The largest id of a page *)

Lemma largest_bounds (first : Z) (rest : list Z) :
  first ≤ largest first rest ∧ Forall (λ i, i ≤ largest first rest) rest.
Proof.
  unfold largest. revert first.
  induction rest as [|i rest IH]; intros first; simpl.
  - split; [lia | constructor].
  - destruct (IH (Z.max first i)) as [Hle Hall].
    split; [lia |]. constructor; [lia | exact Hall].
Qed.

Lemma largest_elem (first : Z) (rest : list Z) :
  largest first rest ∈ first :: rest.
Proof.
  unfold largest. revert first.
  induction rest as [|i rest IH]; intros first; simpl.
  - set_solver.
  - pose proof (IH (Z.max first i)) as H.
    apply elem_of_cons in H as [H | H]; [rewrite H | set_solver].
    destruct (Z.max_spec first i) as [[_ ->] | [_ ->]]; set_solver.
Qed.

Section RouterFacts.

Variable isStringProvided : JsValue → bool.
Variable isNumberProvided : JsValue → bool.
Variable generateHash : JsValue → JsValue → JsValue.
Variable stringToNumber : string → option Z.
Variable secret : JsValue.
Variable pool : Sql → list JsValue → PoolOutcome.

Lemma pool_query_resolves statement values result :
  pool statement values = Resolves result →
  pool_query pool statement values = ([PoolQuery statement values], Returned result).
Proof. intros H. unfold pool_query. by rewrite H. Qed.

Lemma pool_query_rejects statement values error :
  pool statement values = Rejects error →
  pool_query pool statement values = ([PoolQuery statement values], Thrown error).
Proof. intros H. unfold pool_query. by rewrite H. Qed.

(** A query parameter is read to a value its guard admits, whatever the
    query string holds: the page size is positive, the offset and the cursor
    are not negative. *)
Lemma query_number_admits candidate admits fallback :
  admits fallback = true →
  admits (query_number isNumberProvided stringToNumber candidate admits fallback) = true.
Proof.
  intros Hfallback. unfold query_number.
  destruct (unary_plus _ _) as [n|]; [|done].
  destruct (isNumberProvided _); simpl; [|done].
  by destruct (admits n) eqn:E.
Qed.

Lemma limit_of_pos request :
  0 < limit_of isNumberProvided stringToNumber request.
Proof.
  apply Z.ltb_lt. unfold limit_of.
  by apply (query_number_admits _ (λ n, 0 <? n)).
Qed.

Lemma offset_of_nonneg request :
  0 ≤ offset_of isNumberProvided stringToNumber request.
Proof.
  apply Z.leb_le. unfold offset_of.
  by apply (query_number_admits _ (λ n, 0 <=? n)).
Qed.

Lemma cursor_of_nonneg request :
  0 ≤ cursor_of isNumberProvided stringToNumber request.
Proof.
  apply Z.leb_le. unfold cursor_of.
  by apply (query_number_admits _ (λ n, 0 <=? n)).
Qed.

(** The reducer [(max, id) => (id > max ? id : max)] on numeric ids. *)
Lemma reduce_ids (first : Z) (rest : list Z) :
  fold_left (λ max id, if js_gt stringToNumber id max then id else max)
            (JsNumber <$> rest) (JsNumber first)
  = JsNumber (largest first rest).
Proof.
  unfold largest. revert first.
  induction rest as [|i rest IH]; intros first; simpl; [done|].
  destruct (first <? i) eqn:E.
  - rewrite IH. f_equal. f_equal. lia.
  - rewrite IH. f_equal. f_equal. lia.
Qed.

(** On a page that is not empty, [pagination.cursor] is the largest id of the
    rows of the page. *)
Lemma get_cursor_largest_id request page result counted others first rest :
  pool SelectCursorPage
       [JsNumber (limit_of isNumberProvided stringToNumber request);
        JsNumber (cursor_of isNumberProvided stringToNumber request)]
    = Resolves page →
  (λ row, get row "demoid") <$> rows page = JsNumber <$> first :: rest →
  pool CountDemo [] = Resolves result →
  rows result = counted :: others →
  completion (get_cursor isNumberProvided stringToNumber pool request)
  = Returned (mkResponse 200
      (CursorBody (format <$> (delete "demoid" <$> rows page))
                  (get counted "exact_count")
                  (limit_of isNumberProvided stringToNumber request)
                  (JsNumber (largest first rest)))).
Proof.
  intros Hpage Hids Hcount Hrows. unfold get_cursor.
  rewrite (pool_query_resolves _ _ _ Hpage), bind_returned.
  rewrite (pool_query_resolves _ _ _ Hcount), bind_returned.
  rewrite Hrows, Hids. simpl. by rewrite reduce_ids.
Qed.

(** C1 (the defect): when the page has no row, the reduction without an
    initial value throws before anything is sent: [GET /cursor] does not
    return the cursor it was given, it completes with a [TypeError]. *)
Theorem get_cursor_empty_page_throws request page result counted others :
  pool SelectCursorPage
       [JsNumber (limit_of isNumberProvided stringToNumber request);
        JsNumber (cursor_of isNumberProvided stringToNumber request)]
    = Resolves page →
  rows page = [] →
  pool CountDemo [] = Resolves result →
  rows result = counted :: others →
  completion (get_cursor isNumberProvided stringToNumber pool request)
  = Thrown (TypeError "Reduce of empty array with no initial value").
Proof.
  intros Hpage Hempty Hcount Hrows. unfold get_cursor.
  rewrite (pool_query_resolves _ _ _ Hpage), bind_returned.
  rewrite (pool_query_resolves _ _ _ Hcount), bind_returned.
  by rewrite Hrows, Hempty.
Qed.

(** ** Offset pagination *)



(** Whatever the pool answers, a page that is served carries
    [nextPage = limit + offset], the sum of the language. *)
Lemma get_offset_response request page result counted others :
  pool SelectOffsetPage
       [JsNumber (limit_of isNumberProvided stringToNumber request);
        JsNumber (offset_of isNumberProvided stringToNumber request)]
    = Resolves page →
  pool CountDemo [] = Resolves result →
  rows result = counted :: others →
  completion (get_offset isNumberProvided stringToNumber pool request)
  = Returned (mkResponse 200
      (OffsetBody (format <$> rows page)
                  (get counted "exact_count")
                  (limit_of isNumberProvided stringToNumber request)
                  (offset_of isNumberProvided stringToNumber request)
                  (js_add (limit_of isNumberProvided stringToNumber request)
                          (offset_of isNumberProvided stringToNumber request)))).
Proof.
  intros Hpage Hcount Hrows. unfold get_offset.
  rewrite (pool_query_resolves _ _ _ Hpage), bind_returned.
  rewrite (pool_query_resolves _ _ _ Hcount), bind_returned.
  by rewrite Hrows.
Qed.



(** ** Create *)

Lemma format_other_key row key :
  key ≠ "formatted" → format row !! key = row !! key.
Proof. intros Hkey. unfold format. by rewrite lookup_insert_ne. Qed.

Lemma format_formatted row :
  get (format row) "formatted" = JsString (formatted row).
Proof. unfold get, format. by rewrite lookup_insert_eq. Qed.

(** When both gates let the request through, the route is the insertion. *)
Lemma post_message_passes request :
  isStringProvided (get (req_body request) "name")
    && isStringProvided (get (req_body request) "message") = true →
  isNumberProvided (get (req_body request) "priority")
    && num_ge (parseInt (get (req_body request) "priority")) 1
    && num_le (parseInt (get (req_body request) "priority")) 3 = true →
  post_message isStringProvided isNumberProvided pool request
  = post_insert pool request.
Proof.
  intros Hstrings Hpriority.
  unfold post_message, chain, post_check_strings, post_check_priority.
  rewrite Hstrings, Hpriority. unfold next.
  by rewrite !ret_bind.
Qed.

(** The two gates of create, in the order of the route: a request whose name
    or message is not provided is answered 400 with the missing-parameters
    message; a request that has both but whose priority is not numeric, or
    whose [parseInt] is [NaN] or lies outside [1,3], is answered 400 with the
    invalid-priority message (a priority given as a number is taken below
    10^21, where it is printed in plain digits). In both cases the trace holds
    the console line alone: no query was sent to the store. *)
Lemma post_message_validation (request : Request) :
  let name := get (req_body request) "name" in
  let message := get (req_body request) "message" in
  let priority := get (req_body request) "priority" in
  (isStringProvided name = false ∨ isStringProvided message = false →
   post_message isStringProvided isNumberProvided pool request
   = ([ConsoleError (LogText "Missing required information")],
      Returned (mkResponse 400 (MessageBody
        "Missing required information - please refer to documentation"))))
  ∧ (isStringProvided name = true → isStringProvided message = true →
     (∀ n, priority = JsNumber n → Z.abs n < 10 ^ 21) →
     (isNumberProvided priority = false
      ∨ ∀ k, parseInt priority = Some k → k < 1 ∨ 3 < k) →
     post_message isStringProvided isNumberProvided pool request
     = ([ConsoleError (LogText "Invalid or missing Priority")],
        Returned (mkResponse 400 (MessageBody
          "Invalid or missing Priority - please refer to documentation")))).
Proof.
  intros name message priority. split.
  - intros Hmissing.
    unfold post_message, chain, post_check_strings. fold name message.
    replace (isStringProvided name && isStringProvided message) with false
      by (destruct Hmissing as [-> | ->]; by rewrite ?andb_false_r).
    reflexivity.
  - intros Hname Hmessage _ Hpriority.
    unfold post_message, chain, post_check_strings, post_check_priority.
    fold name message priority. rewrite Hname, Hmessage. simpl.
    replace (isNumberProvided priority && num_ge (parseInt priority) 1
             && num_le (parseInt priority) 3) with false; [reflexivity|].
    destruct Hpriority as [-> | Hrange]; [done|].
    destruct (parseInt priority) as [k|]; simpl; [|by rewrite andb_false_r].
    destruct (Hrange k eq_refl).
    + replace (1 <=? k) with false by lia. by rewrite andb_false_r.
    + replace (k <=? 3) with false by lia. by rewrite andb_false_r.
Qed.

(** C10: the priority gate looks at [parseInt(priority)] only. A request with
    name and message whose priority is numeric and whose [parseInt] lies in
    [1,3] passes both gates, and the value bound to the INSERT that is sent
    to the store is [request.body.priority] itself, not the integer that was
    checked. *)
Theorem post_message_inserts_untruncated (request : Request) (k : Z) :
  isStringProvided (get (req_body request) "name") = true →
  isStringProvided (get (req_body request) "message") = true →
  isNumberProvided (get (req_body request) "priority") = true →
  parseInt (get (req_body request) "priority") = Some k →
  1 ≤ k ≤ 3 →
  post_check_priority isNumberProvided request = next
  ∧ ∃ rest,
      trace (post_message isStringProvided isNumberProvided pool request)
      = PoolQuery InsertDemo [get (req_body request) "name";
                              get (req_body request) "message";
                              get (req_body request) "priority"] :: rest.
Proof.
  intros Hname Hmessage Hnumeric Hparse Hrange.
  assert (isNumberProvided (get (req_body request) "priority")
          && num_ge (parseInt (get (req_body request) "priority")) 1
          && num_le (parseInt (get (req_body request) "priority")) 3 = true)
    as Hpriority.
  { rewrite Hnumeric, Hparse. simpl.
    apply andb_true_intro. split; lia. }
  split.
  - unfold post_check_priority. by rewrite Hpriority.
  - rewrite post_message_passes; [|by rewrite Hname, Hmessage|done].
    unfold post_insert, try_catch, pool_query.
    destruct (pool InsertDemo _) as [result | error]; simpl.
    + destruct (first_row (rows result)) as [t [row | e]] eqn:Hrow; simpl.
      * eexists. reflexivity.
      * destruct (name_exists e); simpl; eexists; reflexivity.
    + destruct (name_exists error); simpl; eexists; reflexivity.
Qed.

(** C9: a created entry is the whole row the INSERT returned, with
    [formatted] added: every other property of the row, [demoid] included, is
    in the response as the store gave it. The entries of the cursor route
    have no [demoid]. *)
Theorem post_message_entry_keeps_row (request : Request) result row others :
  isStringProvided (get (req_body request) "name")
    && isStringProvided (get (req_body request) "message") = true →
  isNumberProvided (get (req_body request) "priority")
    && num_ge (parseInt (get (req_body request) "priority")) 1
    && num_le (parseInt (get (req_body request) "priority")) 3 = true →
  pool InsertDemo [get (req_body request) "name";
                   get (req_body request) "message";
                   get (req_body request) "priority"] = Resolves result →
  rows result = row :: others →
  completion (post_message isStringProvided isNumberProvided pool request)
  = Returned (mkResponse 201 (EntryBody (format row)))
  ∧ (∀ key, key ≠ "formatted" → format row !! key = row !! key)
  ∧ format row !! "demoid" = row !! "demoid"
  ∧ format row !! "formatted" = Some (JsString (formatted row))
  ∧ ∀ cursorRequest response entries totalRecords limit cursor,
      completion (get_cursor isNumberProvided stringToNumber pool cursorRequest)
      = Returned response →
      res_body response = CursorBody entries totalRecords limit cursor →
      Forall (λ entry, entry !! "demoid" = None) entries.
Proof.
  intros Hstrings Hpriority Hinsert Hrows. repeat split.
  - rewrite post_message_passes by done.
    unfold post_insert, try_catch.
    rewrite (pool_query_resolves _ _ _ Hinsert), bind_returned.
    by rewrite Hrows.
  - apply format_other_key.
  - by apply format_other_key.
  - unfold format. by rewrite lookup_insert_eq.
  - intros cursorRequest response entries totalRecords limit cursor Hrun Hbody.
    unfold get_cursor, pool_query in Hrun.
    destruct (pool SelectCursorPage _) as [page | e]; simpl in Hrun; [|done].
    destruct (pool CountDemo _) as [counted | e]; simpl in Hrun; [|done].
    destruct (rows counted) as [|first rest]; simpl in Hrun; [done|].
    destruct (reduce _ _) as [t [newCursor | e]]; simpl in Hrun; [|done].
    injection Hrun as <-. simpl in Hbody. injection Hbody as <- _ _ _.
    apply Forall_forall. intros entry Hentry.
    apply list_elem_of_fmap in Hentry as (stripped & -> & Hstripped).
    apply list_elem_of_fmap in Hstripped as (full & -> & _).
    rewrite format_other_key by done. apply lookup_delete_eq.
Qed.

(** ** Delete *)

(** C4, as the route does it: the answer depends on whether exactly one row
    was affected. No row: 404 with the not-found message. One row: 200 with
    the text "Deleted: " followed by the formatted record. More than one row:
    not a success, and answered like no row, 404 with the not-found message. *)
Theorem delete_message_by_row_count (request : Request) (result : QueryResult) :
  pool DeleteDemo [get (req_params request) "name"] = Resolves result →
  (rowCount result = 0 →
   delete_message pool request
   = ([PoolQuery DeleteDemo [get (req_params request) "name"]],
      Returned name_not_found))
  ∧ (rowCount result = 1 → ∀ row others, rows result = row :: others →
     delete_message pool request
     = ([PoolQuery DeleteDemo [get (req_params request) "name"]],
        Returned (mkResponse 200 (DeletedBody ("Deleted: " +:+ formatted row)))))
  ∧ (1 < rowCount result →
     delete_message pool request
     = ([PoolQuery DeleteDemo [get (req_params request) "name"]],
        Returned name_not_found)).
Proof.
  intros Hdelete. unfold delete_message, try_catch.
  rewrite (pool_query_resolves _ _ _ Hdelete), bind_returned.
  repeat split.
  - intros ->. reflexivity.
  - intros -> row others ->. simpl. by rewrite format_formatted.
  - intros Hmany. replace (rowCount result =? 1) with false by lia. reflexivity.
Qed.

(** ** Login *)

Lemma post_login_passes request :
  isStringProvided (get (req_body request) "email")
    && isStringProvided (get (req_body request) "password") = true →
  post_login isStringProvided generateHash secret pool request
  = login_lookup generateHash secret pool request.
Proof.
  intros Hstrings. unfold post_login, chain, login_check_strings.
  rewrite Hstrings. unfold next. by rewrite ret_bind.
Qed.

(** C2 (what the route answers): with matching credentials the login answers
    200 with a token signed over [{name, role, id}] taken from the account
    row, with [expiresIn] "14 days", and a user object whose id, email and
    name are the account's. The user's role is the constant "Admin": it is
    not read from the account row, whose role the token carries. *)
Theorem post_login_success (request : Request) result row others :
  isStringProvided (get (req_body request) "email")
    && isStringProvided (get (req_body request) "password") = true →
  pool SelectCredential [get (req_body request) "email"] = Resolves result →
  rowCount result = 1 →
  rows result = row :: others →
  generateHash (get (req_body request) "password") (get row "salt")
  = get row "salted_hash" →
  let accessToken :=
    mkToken (<["name" := get row "firstname"]>
               (<["role" := get row "account_role"]>
                  (<["id" := get row "account_id"]> ∅)))
            secret "14 days" in
  post_login isStringProvided generateHash secret pool request
  = ([PoolQuery SelectCredential [get (req_body request) "email"];
      GenerateHash (get (req_body request) "password") (get row "salt");
      JwtSign accessToken],
     Returned (mkResponse 200 (LoginBody accessToken
       (<["id" := get row "account_id"]>
          (<["email" := get row "email"]>
             (<["name" := get row "firstname"]>
                (<["role" := JsString "Admin"]> ∅))))))).
Proof.
  intros Hstrings Hlookup Hone Hrows Hhash accessToken.
  rewrite post_login_passes by done.
  unfold login_lookup, try_catch.
  rewrite (pool_query_resolves _ _ _ Hlookup), bind_returned.
  unfold login_then. rewrite Hone, Hrows. simpl.
  unfold strict_eq. rewrite Hhash, bool_decide_eq_true_2 by done.
  reflexivity.
Qed.

(** C8: past the parameter gate, a lookup with no row is answered 400
    "Invalid Credentials" and a lookup with more than one row is answered 500
    with the server-error message. In both cases the trace is the query and
    one console line: no hash is computed and no token is signed. *)
Theorem post_login_row_count (request : Request) (result : QueryResult) :
  isStringProvided (get (req_body request) "email")
    && isStringProvided (get (req_body request) "password") = true →
  pool SelectCredential [get (req_body request) "email"] = Resolves result →
  (rowCount result = 0 →
   post_login isStringProvided generateHash secret pool request
   = ([PoolQuery SelectCredential [get (req_body request) "email"];
       ConsoleError (LogText "User not found")],
      Returned invalid_credentials))
  ∧ (1 < rowCount result →
     post_login isStringProvided generateHash secret pool request
     = ([PoolQuery SelectCredential [get (req_body request) "email"];
         ConsoleError
           (LogText "DB Query error on sign in: too many results returned")],
        Returned server_error))
  ∧ (rowCount result = 0 ∨ 1 < rowCount result →
     existsb verifies_or_signs
       (trace (post_login isStringProvided generateHash secret pool request))
     = false).
Proof.
  intros Hstrings Hlookup.
  rewrite post_login_passes by done.
  unfold login_lookup, try_catch.
  rewrite (pool_query_resolves _ _ _ Hlookup), bind_returned.
  unfold login_then.
  repeat split.
  - intros ->. reflexivity.
  - intros Hmany.
    replace (rowCount result =? 0) with false by lia.
    replace (1 <? rowCount result) with true by lia. reflexivity.
  - intros Hnot.
    destruct (rowCount result =? 0) eqn:Hzero; [reflexivity|].
    destruct (1 <? rowCount result) eqn:Hmany; [reflexivity|].
    lia.
Qed.

(** C6: past the parameter gate, a login with an email the store does not
    know and a login with a known email and a password whose hash does not
    match are answered alike: both get 400 "Invalid Credentials". *)
Theorem post_login_no_enumeration (unknown known : Request) none found row others :
  isStringProvided (get (req_body unknown) "email")
    && isStringProvided (get (req_body unknown) "password") = true →
  isStringProvided (get (req_body known) "email")
    && isStringProvided (get (req_body known) "password") = true →
  pool SelectCredential [get (req_body unknown) "email"] = Resolves none →
  rowCount none = 0 →
  pool SelectCredential [get (req_body known) "email"] = Resolves found →
  rowCount found = 1 →
  rows found = row :: others →
  generateHash (get (req_body known) "password") (get row "salt")
  ≠ get row "salted_hash" →
  completion (post_login isStringProvided generateHash secret pool unknown)
  = completion (post_login isStringProvided generateHash secret pool known)
  ∧ completion (post_login isStringProvided generateHash secret pool known)
    = Returned invalid_credentials.
Proof.
  intros Hunknown Hknown Hnone Hzero Hfound Hone Hrows Hmismatch.
  assert (completion (post_login isStringProvided generateHash secret pool known)
          = Returned invalid_credentials) as Hwrong.
  { rewrite post_login_passes by done.
    unfold login_lookup, try_catch.
    rewrite (pool_query_resolves _ _ _ Hfound), bind_returned.
    unfold login_then. rewrite Hone, Hrows. simpl.
    unfold strict_eq. rewrite bool_decide_eq_false_2 by congruence.
    reflexivity. }
  split; [|exact Hwrong].
  rewrite Hwrong.
  destruct (post_login_row_count unknown none Hunknown Hnone) as [Hnorow _].
  by rewrite Hnorow.
Qed.

(** ** Store failures *)

(** The pagination routes have no handler for a rejected query: the rejection
    leaves the route as it came, and the route sends nothing. *)
Lemma get_offset_rejection_escapes request error :
  pool SelectOffsetPage
       [JsNumber (limit_of isNumberProvided stringToNumber request);
        JsNumber (offset_of isNumberProvided stringToNumber request)]
    = Rejects error →
  get_offset isNumberProvided stringToNumber pool request
  = ([PoolQuery SelectOffsetPage
        [JsNumber (limit_of isNumberProvided stringToNumber request);
         JsNumber (offset_of isNumberProvided stringToNumber request)]],
     Thrown error).
Proof.
  intros Hpage. unfold get_offset.
  by rewrite (pool_query_rejects _ _ _ Hpage).
Qed.

Lemma get_cursor_rejection_escapes request error :
  pool SelectCursorPage
       [JsNumber (limit_of isNumberProvided stringToNumber request);
        JsNumber (cursor_of isNumberProvided stringToNumber request)]
    = Rejects error →
  get_cursor isNumberProvided stringToNumber pool request
  = ([PoolQuery SelectCursorPage
        [JsNumber (limit_of isNumberProvided stringToNumber request);
         JsNumber (cursor_of isNumberProvided stringToNumber request)]],
     Thrown error).
Proof.
  intros Hpage. unfold get_cursor.
  by rewrite (pool_query_rejects _ _ _ Hpage).
Qed.

(** C3, as login, create and delete do it: a rejected query is caught in the
    route, written to the console, and answered with a message that is fixed
    in the route and carries nothing of the error: 500 with the server-error
    message, except that create answers 400 "Name exists" to an error whose
    detail ends with "exists.". *)
Theorem store_failure_is_answered (request : Request) (error : JsError) :
  (isStringProvided (get (req_body request) "email")
     && isStringProvided (get (req_body request) "password") = true →
   pool SelectCredential [get (req_body request) "email"] = Rejects error →
   post_login isStringProvided generateHash secret pool request
   = ([PoolQuery SelectCredential [get (req_body request) "email"];
       ConsoleError (LogText "DB Query error on sign in");
       ConsoleError (LogError error)],
      Returned server_error))
  ∧ (pool DeleteDemo [get (req_params request) "name"] = Rejects error →
     delete_message pool request
     = ([PoolQuery DeleteDemo [get (req_params request) "name"];
         ConsoleError (LogText "DB Query error on DELETE /:name");
         ConsoleError (LogError error)],
        Returned server_error))
  ∧ (isStringProvided (get (req_body request) "name")
       && isStringProvided (get (req_body request) "message") = true →
     isNumberProvided (get (req_body request) "priority")
       && num_ge (parseInt (get (req_body request) "priority")) 1
       && num_le (parseInt (get (req_body request) "priority")) 3 = true →
     pool InsertDemo [get (req_body request) "name";
                      get (req_body request) "message";
                      get (req_body request) "priority"] = Rejects error →
     post_message isStringProvided isNumberProvided pool request
     = if name_exists error
       then ([PoolQuery InsertDemo [get (req_body request) "name";
                                    get (req_body request) "message";
                                    get (req_body request) "priority"];
              ConsoleError (LogText "Name exists")],
             Returned (mkResponse 400 (MessageBody "Name exists")))
       else ([PoolQuery InsertDemo [get (req_body request) "name";
                                    get (req_body request) "message";
                                    get (req_body request) "priority"];
              ConsoleError (LogText "DB Query error on POST");
              ConsoleError (LogError error)],
             Returned server_error)).
Proof.
  repeat split.
  - intros Hstrings Hlookup.
    rewrite post_login_passes by done.
    unfold login_lookup, try_catch.
    by rewrite (pool_query_rejects _ _ _ Hlookup).
  - intros Hdelete. unfold delete_message, try_catch.
    by rewrite (pool_query_rejects _ _ _ Hdelete).
  - intros Hstrings Hpriority Hinsert.
    rewrite post_message_passes by done.
    unfold post_insert, try_catch.
    rewrite (pool_query_rejects _ _ _ Hinsert), bind_thrown.
    by destruct (name_exists error).
Qed.

End RouterFacts.

(** * The routers on example data *)

(** With the cursor on the last id, the page is empty and the route throws. *)
Lemma get_cursor_empty_page_throws_example :
  cursor_of isNumberProvided_model stringToNumber_model
    (query_request [("cursor", JsString "3")]) = 3
  ∧ completion (run_get_cursor example_store [("cursor", JsString "3")])
    = Thrown (TypeError "Reduce of empty array with no initial value").
Proof.
  split; [reflexivity|].
  apply (get_cursor_empty_page_throws isNumberProvided_model stringToNumber_model
           (store_pool example_store) (query_request [("cursor", JsString "3")])
           (result_of [])
           (result_of [ {[ "exact_count" := JsString "3" ]} ])
           {[ "exact_count" := JsString "3" ]} []);
    reflexivity.
Defined.

(** A page of two rows from the start: the cursor is the larger id. *)
Example get_cursor_first_page :
  ∃ entries,
    completion (run_get_cursor example_store [("limit", JsString "2")])
    = Returned (mkResponse 200 (CursorBody entries (JsString "3") 2 (JsNumber 2))).
Proof. eexists. vm_compute. reflexivity. Qed.

(** Alice's stored role is "User"; the token carries it, the user object of
    the response says "Admin". *)
Lemma post_login_success_example :
  get alice "account_role" = JsString "User"
  ∧ ∃ accessToken user,
      completion (run_post_login example_store "alice@uw.edu" "correct horse")
      = Returned (mkResponse 200 (LoginBody accessToken user))
      ∧ payload accessToken !! "role" = Some (JsString "User")
      ∧ expiresIn accessToken = "14 days"
      ∧ user !! "role" = Some (JsString "Admin").
Proof.
  split; [reflexivity|].
  do 2 eexists. split.
  - unfold run_post_login.
    rewrite (post_login_success isStringProvided_model generateHash_model
               (JsString "secret") (store_pool example_store)
               (body_request [("email", JsString "alice@uw.edu");
                              ("password", JsString "correct horse")])
               (result_of [alice]) alice []);
      reflexivity.
  - repeat split; reflexivity.
Defined.

(** A duplicate name is a store failure answered 400, and a rejected page
    query is not answered at all. *)
Lemma store_failure_not_always_500 :
  store_pool example_store InsertDemo [JsString "A"; JsString "again"; JsString "2"]
  = Rejects (DatabaseError "duplicate key value violates unique constraint"
               (Some "Key (name)=(A) already exists."))
  ∧ run_post_message example_store
      [("name", JsString "A"); ("message", JsString "again"); ("priority", JsString "2")]
    = ([PoolQuery InsertDemo [JsString "A"; JsString "again"; JsString "2"];
        ConsoleError (LogText "Name exists")],
       Returned (mkResponse 400 (MessageBody "Name exists")))
  ∧ completion (run_post_message example_store
      [("name", JsString "A"); ("message", JsString "again"); ("priority", JsString "2")])
    ≠ Returned server_error
  ∧ get_offset isNumberProvided_model stringToNumber_model failing_pool (query_request [])
    = ([PoolQuery SelectOffsetPage [JsNumber 10; JsNumber 0]],
       Thrown (DatabaseError "connection terminated unexpectedly" None))
  ∧ get_cursor isNumberProvided_model stringToNumber_model failing_pool (query_request [])
    = ([PoolQuery SelectCursorPage [JsNumber 10; JsNumber 0]],
       Thrown (DatabaseError "connection terminated unexpectedly" None)).
Proof. repeat split; vm_compute; (reflexivity || discriminate). Qed.

(** With the pool down, login, delete and create answer the server error. *)
Lemma store_failure_is_answered_example :
  let down := DatabaseError "connection terminated unexpectedly" None in
  let request :=
    mkRequest ∅
      (list_to_map [("email", JsString "alice@uw.edu"); ("password", JsString "pw");
                    ("name", JsString "Z"); ("message", JsString "x");
                    ("priority", JsString "2")])
      (list_to_map [("name", JsString "A")]) in
  completion (post_login isStringProvided_model generateHash_model
                (JsString "secret") failing_pool request)
  = Returned server_error
  ∧ completion (delete_message failing_pool request) = Returned server_error
  ∧ completion (post_message isStringProvided_model isNumberProvided_model
                  failing_pool request)
    = Returned server_error.
Proof.
  intros down request.
  destruct (store_failure_is_answered isStringProvided_model isNumberProvided_model
              generateHash_model (JsString "secret") failing_pool request down)
    as (Hlogin & Hdelete & Hcreate).
  rewrite Hlogin, Hdelete, Hcreate by reflexivity.
  repeat split; reflexivity.
Defined.

(** Two rows deleted at once: the answer is 404, not a server error. *)
Lemma delete_many_rows_is_not_found :
  (∃ result,
     store_pool duplicated_store DeleteDemo [JsString "dup"] = Resolves result
     ∧ rowCount result = 2)
  ∧ completion (run_delete_message duplicated_store "dup")
    = Returned (mkResponse 404 (MessageBody "Name not found"))
  ∧ completion (run_delete_message duplicated_store "dup") ≠ Returned server_error.
Proof.
  split; [eexists; split; reflexivity|].
  split; [reflexivity|]. vm_compute. discriminate.
Qed.

Lemma delete_message_by_row_count_example :
  completion (run_delete_message example_store "Q") = Returned name_not_found
  ∧ completion (run_delete_message example_store "A")
    = Returned (mkResponse 200 (DeletedBody "Deleted: {2} - [A] says: hi"))
  ∧ completion (run_delete_message duplicated_store "dup") = Returned name_not_found.
Proof.
  unfold run_delete_message.
  destruct (delete_message_by_row_count (store_pool example_store)
              (params_request [("name", JsString "Q")]) (result_of []) eq_refl)
    as (Hnone & _ & _).
  destruct (delete_message_by_row_count (store_pool example_store)
              (params_request [("name", JsString "A")])
              (result_of [row_full (mkDemo 1 "A" "hi" 2)]) eq_refl)
    as (_ & Hone & _).
  destruct (delete_message_by_row_count (store_pool duplicated_store)
              (params_request [("name", JsString "dup")])
              (result_of [row_full (mkDemo 1 "dup" "one" 1);
                          row_full (mkDemo 2 "dup" "two" 2)]) eq_refl)
    as (_ & _ & Hmany).
  rewrite Hnone by reflexivity.
  rewrite (Hone eq_refl _ _ eq_refl).
  rewrite Hmany by reflexivity.
  repeat split; reflexivity.
Defined.


(** An unknown email and a wrong password get the same answer. *)
Lemma post_login_no_enumeration_example :
  completion (run_post_login example_store "bob@uw.edu" "guess")
  = completion (run_post_login example_store "alice@uw.edu" "guess")
  ∧ completion (run_post_login example_store "alice@uw.edu" "guess")
    = Returned invalid_credentials.
Proof.
  apply (post_login_no_enumeration isStringProvided_model generateHash_model
           (JsString "secret") (store_pool example_store)
           (body_request [("email", JsString "bob@uw.edu"); ("password", JsString "guess")])
           (body_request [("email", JsString "alice@uw.edu"); ("password", JsString "guess")])
           (result_of []) (result_of [alice]) alice []);
    try reflexivity.
  vm_compute. discriminate.
Defined.

(** No row, then two rows, for the email of the request. *)
Lemma post_login_row_count_example :
  completion (run_post_login example_store "bob@uw.edu" "guess")
  = Returned invalid_credentials
  ∧ completion (run_post_login duplicated_store "alice@uw.edu" "correct horse")
    = Returned server_error
  ∧ existsb verifies_or_signs
      (trace (run_post_login duplicated_store "alice@uw.edu" "correct horse"))
    = false.
Proof.
  unfold run_post_login.
  destruct (post_login_row_count isStringProvided_model generateHash_model
              (JsString "secret") (store_pool example_store)
              (body_request [("email", JsString "bob@uw.edu");
                             ("password", JsString "guess")])
              (result_of []) eq_refl eq_refl)
    as (Hnone & _ & _).
  destruct (post_login_row_count isStringProvided_model generateHash_model
              (JsString "secret") (store_pool duplicated_store)
              (body_request [("email", JsString "alice@uw.edu");
                             ("password", JsString "correct horse")])
              (result_of [alice; alice]) eq_refl eq_refl)
    as (_ & Hmany & Hquiet).
  rewrite Hnone by reflexivity.
  rewrite Hquiet by (right; vm_compute; reflexivity).
  rewrite Hmany by (vm_compute; reflexivity).
  repeat split; reflexivity.
Defined.

(** C7 (the defect): the priority "3.9" is numeric and above 3, outside the
    range [1,3] the route documents; its [parseInt] is 3, so the priority gate
    calls [next()], the request is not answered with the invalid-priority
    message, and the INSERT is sent with "3.9". *)
Lemma post_message_accepts_3_9 :
  let b := [("name", JsString "Z"); ("message", JsString "x");
            ("priority", JsString "3.9")] in
  isNumberProvided_model (JsString "3.9") = true
  ∧ (∃ q, decimal_value "3.9" = Some q ∧ (3 < q)%Q)
  ∧ parseInt (JsString "3.9") = Some 3
  ∧ post_check_priority isNumberProvided_model (body_request b) = next
  ∧ (∃ rest, trace (run_post_message example_store b)
             = PoolQuery InsertDemo [JsString "Z"; JsString "x"; JsString "3.9"]
               :: rest)
  ∧ completion (run_post_message example_store b)
    ≠ Returned (mkResponse 400 (MessageBody
        "Invalid or missing Priority - please refer to documentation")).
Proof.
  intros b. split; [reflexivity|].
  split; [eexists; split; [reflexivity | reflexivity]|].
  split; [reflexivity|]. split; [reflexivity|].
  split; [eexists; vm_compute; reflexivity|].
  vm_compute. discriminate.
Qed.

(** Without a name the answer is the missing-parameters one, also when the
    priority is out of range; with name and message, a priority of 7 or one
    that is not numeric gets the invalid-priority answer. *)
Lemma post_message_validation_example :
  run_post_message example_store [("message", JsString "x"); ("priority", JsString "7")]
  = ([ConsoleError (LogText "Missing required information")],
     Returned (mkResponse 400 (MessageBody
       "Missing required information - please refer to documentation")))
  ∧ run_post_message example_store
      [("name", JsString "Z"); ("message", JsString "x"); ("priority", JsString "7")]
    = ([ConsoleError (LogText "Invalid or missing Priority")],
       Returned (mkResponse 400 (MessageBody
         "Invalid or missing Priority - please refer to documentation")))
  ∧ run_post_message example_store
      [("name", JsString "Z"); ("message", JsString "x"); ("priority", JsString "high")]
    = ([ConsoleError (LogText "Invalid or missing Priority")],
       Returned (mkResponse 400 (MessageBody
         "Invalid or missing Priority - please refer to documentation"))).
Proof.
  unfold run_post_message.
  split; [|split].
  - apply (post_message_validation isStringProvided_model isNumberProvided_model
             (store_pool example_store)
             (body_request [("message", JsString "x"); ("priority", JsString "7")])).
    left. reflexivity.
  - apply (post_message_validation isStringProvided_model isNumberProvided_model
             (store_pool example_store)
             (body_request [("name", JsString "Z"); ("message", JsString "x");
                            ("priority", JsString "7")]));
      [reflexivity | reflexivity | discriminate |].
    right. intros k Hk. vm_compute in Hk. injection Hk as <-. lia.
  - apply (post_message_validation isStringProvided_model isNumberProvided_model
             (store_pool example_store)
             (body_request [("name", JsString "Z"); ("message", JsString "x");
                            ("priority", JsString "high")]));
      [reflexivity | reflexivity | discriminate |].
    left. reflexivity.
Defined.

(** The priority "2.9" passes the gate, but it is not inserted: the store
    refuses the text for its integer column and create answers 500. *)
Lemma post_message_2_9_is_not_inserted :
  let b := [("name", JsString "Z"); ("message", JsString "x");
            ("priority", JsString "2.9")] in
  parseInt (JsString "2.9") = Some 2
  ∧ post_check_priority isNumberProvided_model (body_request b) = next
  ∧ store_pool example_store InsertDemo [JsString "Z"; JsString "x"; JsString "2.9"]
    = Rejects (DatabaseError "invalid input syntax for type integer" None)
  ∧ run_post_message example_store b
    = ([PoolQuery InsertDemo [JsString "Z"; JsString "x"; JsString "2.9"];
        ConsoleError (LogText "DB Query error on POST");
        ConsoleError
          (LogError (DatabaseError "invalid input syntax for type integer" None))],
       Returned server_error).
Proof. intros b. repeat split; vm_compute; reflexivity. Qed.

(** The priority "2.9": the gate reads 2, the store is sent "2.9". *)
Lemma post_message_inserts_untruncated_example :
  let b := [("name", JsString "Z"); ("message", JsString "x");
            ("priority", JsString "2.9")] in
  parseInt (JsString "2.9") = Some 2
  ∧ post_check_priority isNumberProvided_model (body_request b) = next
  ∧ ∃ rest, trace (run_post_message example_store b)
            = PoolQuery InsertDemo [JsString "Z"; JsString "x"; JsString "2.9"]
              :: rest.
Proof.
  intros b. split; [reflexivity|].
  apply (post_message_inserts_untruncated isStringProvided_model
           isNumberProvided_model (store_pool example_store) (body_request b) 2);
    try reflexivity.
  lia.
Defined.

(** RETURNING * gives the new row with the id the store assigned. *)
Lemma store_insert_returns_demoid db n m p k :
  pg_integer p = Some k →
  n ∉ demo_name <$> demo db →
  store_pool db InsertDemo [JsString n; JsString m; p]
  = Resolves (result_of [row_full (mkDemo (nextId db) n m k)])
  ∧ row_full (mkDemo (nextId db) n m k) !! "demoid" = Some (JsNumber (nextId db)).
Proof.
  intros Hp Hfresh. split; [|reflexivity].
  simpl. rewrite Hp. by rewrite bool_decide_eq_false_2.
Qed.

(** Creating "Z" in the example store: the entry has the id 4 of the new
    row; the entries of a cursor page have none. *)
Lemma post_message_entry_keeps_row_example :
  let created := row_full (mkDemo 4 "Z" "x" 3) in
  completion (run_post_message example_store
                [("name", JsString "Z"); ("message", JsString "x");
                 ("priority", JsString "3")])
  = Returned (mkResponse 201 (EntryBody (format created)))
  ∧ format created !! "demoid" = Some (JsNumber 4)
  ∧ format created !! "formatted" = Some (JsString "{3} - [Z] says: x")
  ∧ ∃ entries,
      completion (run_get_cursor example_store [])
      = Returned (mkResponse 200 (CursorBody entries (JsString "3") 10 (JsNumber 3)))
      ∧ Forall (λ entry, entry !! "demoid" = None) entries.
Proof.
  intros created.
  destruct (post_message_entry_keeps_row isStringProvided_model isNumberProvided_model
              stringToNumber_model (store_pool example_store)
              (body_request [("name", JsString "Z"); ("message", JsString "x");
                             ("priority", JsString "3")])
              (result_of [created]) created [] eq_refl eq_refl eq_refl eq_refl)
    as (Hrun & _ & Hid & Hformatted & Hcursor).
  split; [exact Hrun|].
  split; [rewrite Hid; reflexivity|].
  split; [rewrite Hformatted; reflexivity|].
  eexists. split; [vm_compute; reflexivity|].
  eapply (Hcursor (query_request [])); vm_compute; reflexivity.
Defined.

(** * Further properties of the routers *)

Section LoginFacts.

Variable isStringProvided : JsValue → bool.
Variable generateHash : JsValue → JsValue → JsValue.
Variable secret : JsValue.
Variable pool : Sql → list JsValue → PoolOutcome.

(** X1: a login without an email or without a password is answered 400 "Missing
    required information" by the gate: the store is not queried and nothing
    is written to the console. *)
Theorem post_login_missing_parameters (request : Request) :
  isStringProvided (get (req_body request) "email") = false
  ∨ isStringProvided (get (req_body request) "password") = false →
  post_login isStringProvided generateHash secret pool request
  = ([], Returned (mkResponse 400 (MessageBody "Missing required information"))).
Proof.
  intros Hmissing. unfold post_login, chain, login_check_strings.
  replace (isStringProvided (get (req_body request) "email")
           && isStringProvided (get (req_body request) "password")) with false
    by (destruct Hmissing as [-> | ->]; by rewrite ?andb_false_r).
  reflexivity.
Qed.


(** X3: a login is answered 200 only when it passed the gate, the lookup gave a
    row without reporting zero or several, and the hash of the submitted
    password with the salt of that row is the stored hash. *)
Theorem post_login_200_only_on_match (request : Request) (response : Response) :
  completion (post_login isStringProvided generateHash secret pool request)
  = Returned response →
  res_status response = 200 →
  isStringProvided (get (req_body request) "email")
    && isStringProvided (get (req_body request) "password") = true
  ∧ ∃ result row others,
      pool SelectCredential [get (req_body request) "email"] = Resolves result
      ∧ rowCount result ≠ 0 ∧ rowCount result ≤ 1
      ∧ rows result = row :: others
      ∧ generateHash (get (req_body request) "password") (get row "salt")
        = get row "salted_hash".
Proof.
  unfold post_login, chain, login_check_strings.
  destruct (isStringProvided _ && isStringProvided _);
    [|simpl; intros [= <-]; discriminate].
  unfold next. rewrite ret_bind.
  unfold login_lookup, try_catch, pool_query.
  destruct (pool SelectCredential _) as [result | error]; simpl;
    [|intros [= <-]; discriminate].
  unfold login_then.
  destruct (rowCount result =? 0) eqn:Hzero; [intros [= <-]; discriminate|].
  destruct (1 <? rowCount result) eqn:Hmany; [intros [= <-]; discriminate|].
  destruct (rows result) as [|row others] eqn:Hrows; simpl;
    [intros [= <-]; discriminate|].
  destruct (strict_eq _ _) eqn:Hmatch; simpl; [|intros [= <-]; discriminate].
  intros _ _. split; [done|].
  exists result, row, others.
  apply bool_decide_eq_true_1 in Hmatch.
  repeat split; [lia | lia | done | done].
Qed.

(** X4: a successful login gives out the account's id, email and first name, the
    constant role, and a token over name, role and id signed with the
    configured secret: neither object has any other property, so the salt and
    the salted hash of the row stay in the route. *)
Theorem post_login_exposes_no_credentials (request : Request) code accessToken user :
  completion (post_login isStringProvided generateHash secret pool request)
  = Returned (mkResponse code (LoginBody accessToken user)) →
  dom user = list_to_set ["id"; "email"; "name"; "role"]
  ∧ dom (payload accessToken) = list_to_set ["name"; "role"; "id"]
  ∧ secretOrPrivateKey accessToken = secret
  ∧ user !! "salted_hash" = None ∧ user !! "salt" = None
  ∧ payload accessToken !! "salted_hash" = None
  ∧ payload accessToken !! "salt" = None.
Proof.
  unfold post_login, chain, login_check_strings.
  destruct (isStringProvided _ && isStringProvided _); [|simpl; intros [=]].
  unfold next. rewrite ret_bind.
  unfold login_lookup, try_catch, pool_query.
  destruct (pool SelectCredential _) as [result | error]; simpl; [|intros [=]].
  unfold login_then.
  destruct (rowCount result =? 0); [intros [=]|].
  destruct (1 <? rowCount result); [intros [=]|].
  destruct (rows result) as [|row others]; simpl; [intros [=]|].
  destruct (strict_eq _ _); simpl; [|intros [=]].
  intros [= <- <- <-]. simpl.
  rewrite !dom_insert_L, !dom_empty_L.
  repeat split; set_solver.
Qed.

End LoginFacts.

(** ** Strings ending with a suffix *)

Lemma string_app_cons (a : ascii) (s t : string) :
  String a s +:+ t = String a (s +:+ t).
Proof. reflexivity. Qed.

Lemma string_app_nil_r (s : string) : s +:+ "" = s.
Proof.
  induction s as [|a s IH]; [done|]. by rewrite string_app_cons, IH.
Qed.

Lemma rev_app_append (s t u : string) :
  String.rev_app s (t +:+ u) = String.rev_app s t +:+ u.
Proof.
  revert t. induction s as [|a s IH]; intros t; simpl; [done|].
  by rewrite <-IH, string_app_cons.
Qed.

Lemma rev_app_of_append (s t u : string) :
  String.rev_app (s +:+ t) u = String.rev_app t (String.rev_app s u).
Proof.
  revert u. induction s as [|a s IH]; intros u; [done|].
  rewrite string_app_cons. simpl. apply IH.
Qed.

Lemma rev_app_rev_app (s t u : string) :
  String.rev_app (String.rev_app s t) u = String.rev_app t (s +:+ u).
Proof.
  revert t u. induction s as [|a s IH]; intros t u; simpl; [done|].
  by rewrite IH, string_app_cons.
Qed.

Lemma string_rev_append (s t : string) :
  String.rev (s +:+ t) = String.rev t +:+ String.rev s.
Proof.
  unfold String.rev. rewrite rev_app_of_append.
  by rewrite <-rev_app_append.
Qed.

Lemma string_rev_involutive (s : string) : String.rev (String.rev s) = s.
Proof.
  unfold String.rev. rewrite rev_app_rev_app. simpl. apply string_app_nil_r.
Qed.

Lemma prefix_append (s t : string) :
  String.prefix s t = true ↔ ∃ rest, t = s +:+ rest.
Proof.
  revert t. induction s as [|a s IH]; intros t.
  - destruct t; simpl; split; eauto.
  - destruct t as [|b t]; simpl.
    + split; [done | intros [rest [=]]].
    + destruct (ascii_dec a b) as [-> | Hne].
      * rewrite IH. split; intros [rest Hrest]; exists rest.
        -- by rewrite string_app_cons, Hrest.
        -- rewrite string_app_cons in Hrest. congruence.
      * split; [done | intros [rest Hrest]].
        rewrite string_app_cons in Hrest. congruence.
Qed.

(** [s.endsWith(suffix)] holds exactly of the strings [before + suffix]. *)
Lemma endsWith_append (s suffix : string) :
  endsWith s suffix = true ↔ ∃ before, s = before +:+ suffix.
Proof.
  unfold endsWith. rewrite prefix_append. split.
  - intros [rest Hrest]. exists (String.rev rest).
    rewrite <-(string_rev_involutive s), Hrest, string_rev_append.
    by rewrite string_rev_involutive.
  - intros [before ->]. exists (String.rev before). apply string_rev_append.
Qed.

Section MessageFacts.

Variable isStringProvided : JsValue → bool.
Variable isNumberProvided : JsValue → bool.
Variable stringToNumber : string → option Z.
Variable pool : Sql → list JsValue → PoolOutcome.



(** X8: which rejected INSERT is reported as a duplicate: past the gates, create
    answers 400 "Name exists" exactly when the error is a database error
    whose detail is some text followed by "exists."; any other error is
    answered 500 with the server-error message. *)
Theorem post_message_name_exists_iff (request : Request) (error : JsError) :
  isStringProvided (get (req_body request) "name")
    && isStringProvided (get (req_body request) "message") = true →
  isNumberProvided (get (req_body request) "priority")
    && num_ge (parseInt (get (req_body request) "priority")) 1
    && num_le (parseInt (get (req_body request) "priority")) 3 = true →
  pool InsertDemo [get (req_body request) "name";
                   get (req_body request) "message";
                   get (req_body request) "priority"] = Rejects error →
  ((∃ text before, error = DatabaseError text (Some (before +:+ "exists."))) →
   completion (post_message isStringProvided isNumberProvided pool request)
   = Returned (mkResponse 400 (MessageBody "Name exists")))
  ∧ ((∀ text before, error ≠ DatabaseError text (Some (before +:+ "exists."))) →
     completion (post_message isStringProvided isNumberProvided pool request)
     = Returned server_error).
Proof.
  intros Hstrings Hpriority Hinsert.
  rewrite (post_message_passes _ _ _ _ Hstrings Hpriority).
  unfold post_insert, try_catch.
  rewrite (pool_query_rejects _ _ _ _ Hinsert), bind_thrown.
  split.
  - intros (text & before & ->).
    assert (name_exists (DatabaseError text (Some (before +:+ "exists."))) = true)
      as ->; [|reflexivity].
    unfold name_exists. simpl. apply andb_true_intro. split.
    + by destruct before.
    + apply endsWith_append. eauto.
  - intros Hother.
    assert (name_exists error = false) as ->; [|reflexivity].
    apply not_true_is_false. intros Hexists.
    unfold name_exists in Hexists.
    destruct error as [text [detail|] | text]; simpl in Hexists; try done.
    apply andb_prop in Hexists as [_ Hends].
    apply endsWith_append in Hends as [before ->].
    by apply (Hother text before).
Qed.

(** X13: when the offset route answers: exactly when the page query resolves and
    the count query resolves with a row. In every other case the route throws
    and sends nothing. *)
Theorem get_offset_answers_iff (request : Request) :
  (∃ response,
     completion (get_offset isNumberProvided stringToNumber pool request)
     = Returned response)
  ↔ ∃ page result,
      pool SelectOffsetPage
           [JsNumber (limit_of isNumberProvided stringToNumber request);
            JsNumber (offset_of isNumberProvided stringToNumber request)]
        = Resolves page
      ∧ pool CountDemo [] = Resolves result
      ∧ rows result ≠ [].
Proof.
  unfold get_offset, pool_query.
  destruct (pool SelectOffsetPage _) as [page | e]; simpl.
  - destruct (pool CountDemo _) as [result | e]; simpl.
    + destruct (rows result) as [|counted others] eqn:Hrows; simpl.
      * split; [intros [? [=]] | intros (? & ? & _ & [= <-] & Hne)].
        by rewrite Hrows in Hne.
      * split; [|eauto]. intros _. exists page, result.
        by rewrite Hrows.
    + split; [intros [? [=]] | intros (? & ? & _ & [=] & _)].
  - split; [intros [? [=]] | intros (? & ? & [=] & _)].
Qed.

(** X14: when the cursor route answers: exactly when the page query resolves with
    at least one row and the count query resolves with a row. *)
Theorem get_cursor_answers_iff (request : Request) :
  (∃ response,
     completion (get_cursor isNumberProvided stringToNumber pool request)
     = Returned response)
  ↔ ∃ page result,
      pool SelectCursorPage
           [JsNumber (limit_of isNumberProvided stringToNumber request);
            JsNumber (cursor_of isNumberProvided stringToNumber request)]
        = Resolves page
      ∧ rows page ≠ []
      ∧ pool CountDemo [] = Resolves result
      ∧ rows result ≠ [].
Proof.
  unfold get_cursor, pool_query.
  destruct (pool SelectCursorPage _) as [page | e]; simpl.
  - destruct (pool CountDemo _) as [result | e]; simpl.
    + destruct (rows result) as [|counted others] eqn:Hrows; simpl.
      * split; [intros [? [=]] | intros (? & ? & _ & _ & [= <-] & Hne)].
        by rewrite Hrows in Hne.
      * destruct (rows page) as [|row more] eqn:Hpage; simpl.
        -- split; [intros [? [=]] | intros (? & ? & [= <-] & Hne & _)].
           by rewrite Hpage in Hne.
        -- split; [|eauto]. intros _. exists page, result.
           by rewrite Hrows, Hpage.
    + split; [intros [? [=]] | intros (? & ? & _ & _ & [=] & _)].
  - split; [intros [? [=]] | intros (? & ? & [=] & _)].
Qed.

(** X15: whatever the query string holds, the first thing either pagination route
    does is send its page query, with a positive LIMIT and an OFFSET or
    cursor that is not negative. *)
Theorem page_query_values_in_range (request : Request) :
  (∃ limit offset rest,
     trace (get_offset isNumberProvided stringToNumber pool request)
     = PoolQuery SelectOffsetPage [JsNumber limit; JsNumber offset] :: rest
     ∧ 0 < limit ∧ 0 ≤ offset)
  ∧ (∃ limit cursor rest,
       trace (get_cursor isNumberProvided stringToNumber pool request)
       = PoolQuery SelectCursorPage [JsNumber limit; JsNumber cursor] :: rest
       ∧ 0 < limit ∧ 0 ≤ cursor).
Proof.
  split.
  - exists (limit_of isNumberProvided stringToNumber request),
           (offset_of isNumberProvided stringToNumber request).
    unfold get_offset, pool_query.
    destruct (pool SelectOffsetPage _) as [page | e]; simpl.
    + destruct (pool CountDemo _) as [result | e]; simpl.
      * destruct (first_row (rows result)) as [t [counted | e]]; simpl;
          eexists; (split; [reflexivity|]);
          auto using limit_of_pos, offset_of_nonneg.
      * eexists; split; [reflexivity|]; auto using limit_of_pos, offset_of_nonneg.
    + eexists; split; [reflexivity|]; auto using limit_of_pos, offset_of_nonneg.
  - exists (limit_of isNumberProvided stringToNumber request),
           (cursor_of isNumberProvided stringToNumber request).
    unfold get_cursor, pool_query.
    destruct (pool SelectCursorPage _) as [page | e]; simpl.
    + destruct (pool CountDemo _) as [result | e]; simpl.
      * destruct (first_row (rows result)) as [t [counted | e]]; simpl.
        -- destruct (reduce _ _) as [t' [c | e]]; simpl;
             eexists; (split; [reflexivity|]);
             auto using limit_of_pos, cursor_of_nonneg.
        -- eexists; split; [reflexivity|]; auto using limit_of_pos, cursor_of_nonneg.
      * eexists; split; [reflexivity|]; auto using limit_of_pos, cursor_of_nonneg.
    + eexists; split; [reflexivity|]; auto using limit_of_pos, cursor_of_nonneg.
Qed.

(** X16: on a page whose rows carry numeric ids, the cursor that is returned is
    the maximum of those ids: it is one of them and none is larger. *)
Theorem get_cursor_returns_maximum (request : Request) page result counted others ids :
  pool SelectCursorPage
       [JsNumber (limit_of isNumberProvided stringToNumber request);
        JsNumber (cursor_of isNumberProvided stringToNumber request)]
    = Resolves page →
  ids ≠ [] →
  (λ row, get row "demoid") <$> rows page = JsNumber <$> ids →
  pool CountDemo [] = Resolves result →
  rows result = counted :: others →
  ∃ entries totalRecords limit newCursor,
    completion (get_cursor isNumberProvided stringToNumber pool request)
    = Returned (mkResponse 200
        (CursorBody entries totalRecords limit (JsNumber newCursor)))
    ∧ newCursor ∈ ids
    ∧ Forall (λ id, id ≤ newCursor) ids.
Proof.
  intros Hpage Hsome Hids Hcount Hrows.
  destruct ids as [|first rest]; [done|].
  do 3 eexists. exists (largest first rest). split.
  - by apply (get_cursor_largest_id _ _ _ _ _ _ _ _ _ _ Hpage Hids Hcount Hrows).
  - destruct (largest_bounds first rest) as [Hfirst Hrest].
    split; [apply largest_elem|]. by constructor.
Qed.

End MessageFacts.

(** ** The rows of the store, in the order of their ids *)








Lemma filter_none {A} (P : A → Prop) `{!∀ x, Decision (P x)} (l : list A) :
  Forall (λ x, ¬ P x) l → filter P l = [].
Proof.
  induction 1 as [|x l Hx _ IH]; [done|]. by rewrite filter_cons_False.
Qed.



(** ** The pagination routes on the store *)




Section StoreFacts.

Variable isNumberProvided : JsValue → bool.
Variable stringToNumber : string → option Z.










End StoreFacts.

(** ** Delete on the store *)

Lemma filter_unique_name (table : list DemoRecord) (r : DemoRecord) :
  NoDup (demo_name <$> table) →
  r ∈ table →
  filter (λ x, demo_name x = demo_name r) table = [r].
Proof.
  induction table as [|x rest IH]; intros Hnodup Hr; [by apply elem_of_nil in Hr|].
  rewrite fmap_cons in Hnodup. apply NoDup_cons in Hnodup as [Hfresh Hnodup].
  apply elem_of_cons in Hr as [-> | Hr].
  - rewrite filter_cons_True by done. f_equal.
    apply filter_none, Forall_forall. intros y Hy Hname.
    apply Hfresh, list_elem_of_fmap. eauto.
  - rewrite filter_cons_False; [by apply IH|].
    intros Hname. apply Hfresh. rewrite Hname.
    apply list_elem_of_fmap. eauto.
Qed.

(** X12: deleting a name the table does not hold is answered 404, however often
    it is repeated on that table; deleting a name held by one record, names
    being unique, is answered 200 with "Deleted: " and the record as
    "{priority} - [name] says: message". *)
Theorem delete_message_on_store (db : Store) (request : Request) (n : string) :
  get (req_params request) "name" = JsString n →
  (n ∉ demo_name <$> demo db →
   delete_message (store_pool db) request
   = ([PoolQuery DeleteDemo [JsString n]], Returned name_not_found))
  ∧ (∀ r, NoDup (demo_name <$> demo db) → r ∈ demo db → demo_name r = n →
     delete_message (store_pool db) request
     = ([PoolQuery DeleteDemo [JsString n]],
        Returned (mkResponse 200 (DeletedBody
          ("Deleted: {" +:+ pretty (demo_priority r) +:+ "} - [" +:+ demo_name r
           +:+ "] says: " +:+ demo_message r))))).
Proof.
  intros Hname. unfold delete_message, try_catch, pool_query.
  rewrite Hname. split.
  - intros Habsent. simpl.
    rewrite filter_none; [done|].
    apply Forall_forall. intros x Hx Hn. apply Habsent.
    apply list_elem_of_fmap. eauto.
  - intros r Hnodup Hr <-. simpl.
    by rewrite filter_unique_name.
Qed.

(** ** The formatter *)

(** X20: formatting twice is formatting once, and formatting commutes with
    removing the id: the text of a cursor entry is the text of the full
    row. *)
Theorem format_stable (row : gmap string JsValue) :
  format (format row) = format row
  ∧ format (delete "demoid" row) = delete "demoid" (format row)
  ∧ get (format (delete "demoid" row)) "formatted" = get (format row) "formatted".
Proof.
  assert (formatted (format row) = formatted row) as Hagain.
  { unfold formatted, get. by rewrite !format_other_key. }
  assert (formatted (delete "demoid" row) = formatted row) as Hstripped.
  { unfold formatted, get. by rewrite !lookup_delete_ne. }
  repeat split.
  - unfold format at 1. rewrite Hagain. unfold format. apply insert_insert_eq.
  - unfold format. rewrite Hstripped. by rewrite delete_insert_ne.
  - by rewrite !format_formatted, Hstripped.
Qed.

(** ** [parseInt] reads back the decimal text of an integer *)

Lemma small_digit (d : N) :
  (d < 10)%N →
  d ∈ [0; 1; 2; 3; 4; 5; 6; 7; 8; 9]%N.
Proof.
  intros Hd.
  assert (d = 0 ∨ d = 1 ∨ d = 2 ∨ d = 3 ∨ d = 4 ∨ d = 5 ∨ d = 6 ∨ d = 7
          ∨ d = 8 ∨ d = 9)%N as Hcases by lia.
  repeat (destruct Hcases as [-> | Hcases]; [set_solver|]). subst. set_solver.
Qed.

Lemma digit_value_pretty (d : N) :
  (d < 10)%N → digit_value (pretty_N_char d) = Some (Z.of_N d).
Proof.
  intros Hd%small_digit.
  repeat (apply elem_of_cons in Hd as [-> | Hd]; [reflexivity|]).
  by apply elem_of_nil in Hd.
Qed.

Lemma digit_is_plain (d : N) :
  (d < 10)%N →
  is_space (pretty_N_char d) = false
  ∧ pretty_N_char d ≠ "-"%char ∧ pretty_N_char d ≠ "+"%char
  ∧ pretty_N_char d ≠ "x"%char ∧ pretty_N_char d ≠ "X"%char.
Proof.
  intros Hd%small_digit.
  repeat (apply elem_of_cons in Hd as [-> | Hd]; [by repeat split|]).
  by apply elem_of_nil in Hd.
Qed.

Lemma pretty_N_go_digits (x : N) (s : string) :
  decimal_digits s → decimal_digits (pretty_N_go x s).
Proof.
  revert s. induction (N.lt_wf_0 x) as [x _ IH]; intros s Hs.
  assert (x = 0 ∨ 0 < x)%N as [-> | Hpos] by lia; [done|].
  rewrite pretty_N_go_step by done.
  apply IH; [by apply N.div_lt|].
  split; [|done]. exists (x `mod` 10)%N. split; [|done].
  by apply N.mod_lt.
Qed.

Lemma pretty_N_go_not_empty (x : N) (s : string) :
  s ≠ "" → pretty_N_go x s ≠ "".
Proof.
  revert s. induction (N.lt_wf_0 x) as [x _ IH]; intros s Hs.
  assert (x = 0 ∨ 0 < x)%N as [-> | Hpos] by lia; [done|].
  rewrite pretty_N_go_step by done.
  apply IH; [by apply N.div_lt | done].
Qed.

Lemma read_digits_pretty_go (x : N) (s : string) (seen : bool) (acc : Z) :
  (0 < x)%N →
  ∃ scale, read_digits 10 (pretty_N_go x s) seen acc
           = read_digits 10 s true (acc * scale + Z.of_N x).
Proof.
  revert s seen acc. induction (N.lt_wf_0 x) as [x _ IH]; intros s seen acc Hpos.
  rewrite pretty_N_go_step by done.
  assert (x `mod` 10 < 10)%N as Hdigit by by apply N.mod_lt.
  assert (Z.of_N x = Z.of_N (x `div` 10) * 10 + Z.of_N (x `mod` 10)) as Hsplit.
  { pose proof (N.div_mod x 10) as Hx. lia. }
  assert ((Z.of_N (x `mod` 10) <? 10) = true) as Hsmall by (apply Z.ltb_lt; lia).
  assert (x `div` 10 = 0 ∨ 0 < x `div` 10)%N as [Hzero | Hmore] by lia.
  - rewrite Hzero, pretty_N_go_0. exists 10. simpl.
    rewrite digit_value_pretty, Hsmall by done.
    f_equal. rewrite Hsplit, Hzero. lia.
  - destruct (IH (x `div` 10)%N (N.div_lt x 10 Hpos eq_refl)
                 (String (pretty_N_char (x `mod` 10)) s) seen acc Hmore)
      as [scale ->].
    exists (scale * 10). simpl.
    rewrite digit_value_pretty, Hsmall by done.
    f_equal. rewrite Hsplit. lia.
Qed.

Ltac each_digit H tac :=
  repeat (apply elem_of_cons in H as [-> | H]; [tac|]);
  by apply elem_of_nil in H.

Lemma strip_hex_prefix_digits (d : N) (rest : string) :
  (d < 10)%N → decimal_digits rest →
  strip_hex_prefix (String (pretty_N_char d) rest) = None.
Proof.
  intros Hd%small_digit Hrest.
  destruct rest as [|c rest]; [each_digit Hd ltac:(reflexivity)|].
  destruct Hrest as [(d' & Hd'%small_digit & ->) _].
  each_digit Hd ltac:(try reflexivity; each_digit Hd' ltac:(reflexivity)).
Qed.

Lemma sign_of_digits (d : N) (rest : string) :
  (d < 10)%N →
  match String (pretty_N_char d) rest with
  | String "-"%char r => (-1, r)
  | String "+"%char r => (1, r)
  | _ => (1, String (pretty_N_char d) rest)
  end = (1, String (pretty_N_char d) rest).
Proof. intros Hd%small_digit. each_digit Hd ltac:(reflexivity). Qed.

Lemma parseInt_string_digits (t : string) :
  decimal_digits t → t ≠ "" →
  parseInt_string t = read_digits 10 t false 0
  ∧ parseInt_string (String "-" t) = Z.mul (-1) <$> read_digits 10 t false 0.
Proof.
  destruct t as [|c rest]; [done|]. intros [(d & Hd & ->) Hrest] _.
  destruct (digit_is_plain d Hd) as (Hspace & _).
  pose proof (strip_hex_prefix_digits d rest Hd Hrest) as Hhex.
  split.
  - unfold parseInt_string. simpl skip_spaces. rewrite Hspace.
    rewrite (sign_of_digits d rest Hd), Hhex.
    destruct (read_digits 10 _ false 0) as [n|]; simpl; [|done].
    f_equal. lia.
  - unfold parseInt_string.
    change (skip_spaces (String "-" (String (pretty_N_char d) rest)))
      with (String "-" (String (pretty_N_char d) rest)).
    cbv beta iota. by rewrite Hhex.
Qed.

(** [parseInt] of an integer is that integer. *)
Lemma parseInt_number (n : Z) : parseInt (JsNumber n) = Some n.
Proof.
  unfold parseInt. simpl toString.
  destruct n as [|p|p]; [done | |].
  - change (pretty (Z.pos p)) with (pretty_N_go (N.pos p) "").
    destruct (parseInt_string_digits (pretty_N_go (N.pos p) "")) as [-> _].
    + by apply pretty_N_go_digits.
    + rewrite pretty_N_go_step by done. by apply pretty_N_go_not_empty.
    + destruct (read_digits_pretty_go (N.pos p) "" false 0) as [scale ->]; [done|].
      simpl. f_equal.
  - change (pretty (Z.neg p)) with (String "-" (pretty_N_go (N.pos p) "")).
    destruct (parseInt_string_digits (pretty_N_go (N.pos p) "")) as [_ ->].
    + by apply pretty_N_go_digits.
    + rewrite pretty_N_go_step by done. by apply pretty_N_go_not_empty.
    + destruct (read_digits_pretty_go (N.pos p) "" false 0) as [scale ->]; [done|].
      simpl. f_equal.
Qed.

Lemma string_app_assoc (s t u : string) : (s +:+ t) +:+ u = s +:+ (t +:+ u).
Proof.
  induction s as [|a s IH]; [done|]. by rewrite !string_app_cons, IH.
Qed.

Section GateFacts.

Variable isStringProvided : JsValue → bool.
Variable isNumberProvided : JsValue → bool.

(** X9: on an integer priority in the range of exact integers, given as a number
    or as its decimal text, the priority gate is exact: past
    [isNumberProvided], it lets the request through if and only if the
    integer is 1, 2 or 3. *)
Theorem post_check_priority_on_integers (request : Request) (n : Z) :
  get (req_body request) "priority" = JsNumber n
  ∨ get (req_body request) "priority" = JsString (pretty n) →
  - 2 ^ 53 < n < 2 ^ 53 →
  isNumberProvided (get (req_body request) "priority") = true →
  post_check_priority isNumberProvided request = next ↔ 1 ≤ n ≤ 3.
Proof.
  intros Hpriority _ Hnumeric.
  assert (parseInt (get (req_body request) "priority") = Some n) as Hparse.
  { destruct Hpriority as [-> | ->]; apply (parseInt_number n). }
  unfold post_check_priority. rewrite Hnumeric, Hparse. simpl.
  destruct (1 <=? n) eqn:Hlow; destruct (n <=? 3) eqn:Hhigh; simpl;
    split; try done; lia.
Qed.

(** X10: create on the store: a name the table already holds is answered 400
    "Name exists"; a fresh name is answered 201 with the new row, which has
    the next id of the store, the priority as an integer and the text
    "{priority} - [name] says: message". *)
Theorem post_message_on_store (db : Store) (request : Request) (n m : string) (k : Z) :
  get (req_body request) "name" = JsString n →
  get (req_body request) "message" = JsString m →
  pg_integer (get (req_body request) "priority") = Some k →
  isStringProvided (JsString n) && isStringProvided (JsString m) = true →
  isNumberProvided (get (req_body request) "priority")
    && num_ge (parseInt (get (req_body request) "priority")) 1
    && num_le (parseInt (get (req_body request) "priority")) 3 = true →
  (n ∈ demo_name <$> demo db →
   completion (post_message isStringProvided isNumberProvided (store_pool db) request)
   = Returned (mkResponse 400 (MessageBody "Name exists")))
  ∧ (n ∉ demo_name <$> demo db →
     completion (post_message isStringProvided isNumberProvided (store_pool db) request)
     = Returned (mkResponse 201
         (EntryBody (format (row_full (mkDemo (nextId db) n m k)))))
     ∧ format (row_full (mkDemo (nextId db) n m k))
       = <["formatted" :=
             JsString ("{" +:+ pretty k +:+ "} - [" +:+ n +:+ "] says: " +:+ m)]>
           (row_full (mkDemo (nextId db) n m k))).
Proof.
  intros Hname Hmessage Hinteger Hstrings Hpriority.
  rewrite post_message_passes by (by rewrite ?Hname, ?Hmessage).
  unfold post_insert, try_catch, pool_query.
  rewrite Hname, Hmessage. simpl. rewrite Hinteger.
  split.
  - intros Hheld. rewrite bool_decide_eq_true_2 by done. simpl.
    assert (name_exists
              (DatabaseError "duplicate key value violates unique constraint"
                 (Some ("Key (name)=(" +:+ n +:+ ") already exists."))) = true)
      as ->; [|done].
    unfold name_exists. simpl. apply endsWith_append.
    exists ("Key (name)=(" +:+ n +:+ ") already ").
    by rewrite !string_app_assoc.
  - intros Hfresh. rewrite bool_decide_eq_false_2 by done.
    split; reflexivity.
Qed.

End GateFacts.

(** * Further examples *)

(** Closed decidable side conditions are settled by evaluation. *)
Ltac by_evaluation := refine (bool_decide_unpack _ _); vm_compute; exact I.

(** A login with an empty password stops at the gate. *)
Lemma post_login_missing_parameters_example :
  run_post_login example_store "alice@uw.edu" ""
  = ([], Returned (mkResponse 400 (MessageBody "Missing required information"))).
Proof.
  apply (post_login_missing_parameters isStringProvided_model generateHash_model
           (JsString "secret") (store_pool example_store)).
  right. reflexivity.
Defined.

(** Alice's login is answered 200, and her password hashes to the stored
    value. *)
Lemma post_login_200_only_on_match_example :
  ∃ response,
    completion (run_post_login example_store "alice@uw.edu" "correct horse")
    = Returned response
    ∧ res_status response = 200
    ∧ generateHash_model (JsString "correct horse") (get alice "salt")
      = get alice "salted_hash".
Proof.
  eexists. split; [vm_compute; reflexivity|]. split; [reflexivity|].
  destruct (post_login_200_only_on_match isStringProvided_model generateHash_model
              (JsString "secret") (store_pool example_store)
              (body_request [("email", JsString "alice@uw.edu");
                             ("password", JsString "correct horse")])
              _ eq_refl eq_refl)
    as (_ & result & row & others & Hlookup & _ & _ & Hrows & Hhash).
  injection Hlookup as <-. injection Hrows as <- _. exact Hhash.
Defined.

(** The user object of Alice's login has four properties, the token three. *)
Lemma post_login_exposes_no_credentials_example :
  ∃ accessToken user,
    completion (run_post_login example_store "alice@uw.edu" "correct horse")
    = Returned (mkResponse 200 (LoginBody accessToken user))
    ∧ dom user = list_to_set ["id"; "email"; "name"; "role"]
    ∧ dom (payload accessToken) = list_to_set ["name"; "role"; "id"]
    ∧ user !! "salted_hash" = None.
Proof.
  do 2 eexists. split; [vm_compute; reflexivity|].
  destruct (post_login_exposes_no_credentials isStringProvided_model
              generateHash_model (JsString "secret") (store_pool example_store)
              (body_request [("email", JsString "alice@uw.edu");
                             ("password", JsString "correct horse")])
              200 _ _ eq_refl)
    as (Huser & Htoken & _ & Hhash & _).
  split; [exact Huser|]. split; [exact Htoken | exact Hhash].
Defined.

(** A second "A" is a duplicate; with the pool down the answer is 500. *)
Lemma post_message_name_exists_iff_example :
  let b := [("name", JsString "A"); ("message", JsString "again");
            ("priority", JsString "2")] in
  completion (run_post_message example_store b)
  = Returned (mkResponse 400 (MessageBody "Name exists"))
  ∧ completion (post_message isStringProvided_model isNumberProvided_model
                  failing_pool (body_request b))
    = Returned server_error.
Proof.
  intros b. split.
  - apply (post_message_name_exists_iff isStringProvided_model isNumberProvided_model
             (store_pool example_store) (body_request b)
             (DatabaseError "duplicate key value violates unique constraint"
                (Some "Key (name)=(A) already exists."))
             eq_refl eq_refl eq_refl).
    exists "duplicate key value violates unique constraint",
           "Key (name)=(A) already ".
    reflexivity.
  - apply (post_message_name_exists_iff isStringProvided_model isNumberProvided_model
             failing_pool (body_request b)
             (DatabaseError "connection terminated unexpectedly" None)
             eq_refl eq_refl eq_refl).
    intros text before. discriminate.
Defined.

(** On the example store the offset route answers; with the pool down it
    does not. *)
Lemma get_offset_answers_iff_example :
  (∃ response, completion (run_get_offset example_store []) = Returned response)
  ∧ ¬ ∃ response,
        completion (get_offset isNumberProvided_model stringToNumber_model
                      failing_pool (query_request []))
        = Returned response.
Proof.
  split.
  - apply (get_offset_answers_iff isNumberProvided_model stringToNumber_model
             (store_pool example_store) (query_request [])).
    do 2 eexists. split; [reflexivity|]. split; [reflexivity | discriminate].
  - intros Hanswer.
    apply (get_offset_answers_iff isNumberProvided_model stringToNumber_model
             failing_pool (query_request [])) in Hanswer
      as (page & result & Hpage & _).
    discriminate Hpage.
Defined.

(** The cursor route answers from the start of the example store, and does
    not answer past its last id. *)
Lemma get_cursor_answers_iff_example :
  (∃ response, completion (run_get_cursor example_store []) = Returned response)
  ∧ ¬ ∃ response,
        completion (run_get_cursor example_store [("cursor", JsString "3")])
        = Returned response.
Proof.
  split.
  - apply (get_cursor_answers_iff isNumberProvided_model stringToNumber_model
             (store_pool example_store) (query_request [])).
    do 2 eexists. split; [reflexivity|].
    split; [discriminate|]. split; [reflexivity | discriminate].
  - intros Hanswer.
    apply (get_cursor_answers_iff isNumberProvided_model stringToNumber_model
             (store_pool example_store)
             (query_request [("cursor", JsString "3")])) in Hanswer
      as (page & result & Hpage & Hrows & _).
    injection Hpage as <-. by apply Hrows.
Defined.

(** The first two rows by id are 1 and 2: the cursor is 2. *)
Lemma get_cursor_returns_maximum_example :
  ∃ entries totalRecords limit newCursor,
    completion (run_get_cursor example_store [("limit", JsString "2")])
    = Returned (mkResponse 200
        (CursorBody entries totalRecords limit (JsNumber newCursor)))
    ∧ newCursor ∈ [1; 2] ∧ Forall (λ id, id ≤ newCursor) [1; 2].
Proof.
  apply (get_cursor_returns_maximum isNumberProvided_model stringToNumber_model
           (store_pool example_store) (query_request [("limit", JsString "2")])
           (result_of [row_full (mkDemo 1 "A" "hi" 2);
                       row_full (mkDemo 2 "B" "second" 1)])
           (result_of [ {[ "exact_count" := JsString "3" ]} ])
           {[ "exact_count" := JsString "3" ]} [] [1; 2]);
    (reflexivity || discriminate).
Defined.




(** Deleting "Q", which is not there, and "A", which is. *)
Lemma delete_message_on_store_example :
  run_delete_message example_store "Q"
  = ([PoolQuery DeleteDemo [JsString "Q"]], Returned name_not_found)
  ∧ run_delete_message example_store "A"
    = ([PoolQuery DeleteDemo [JsString "A"]],
       Returned (mkResponse 200 (DeletedBody "Deleted: {2} - [A] says: hi"))).
Proof.
  destruct (delete_message_on_store example_store
              (params_request [("name", JsString "Q")]) "Q" eq_refl)
    as [Habsent _].
  destruct (delete_message_on_store example_store
              (params_request [("name", JsString "A")]) "A" eq_refl)
    as [_ Hheld].
  split.
  - apply Habsent. by_evaluation.
  - apply (Hheld (mkDemo 1 "A" "hi" 2)); [by_evaluation | by_evaluation | reflexivity].
Defined.

(** The priorities 2 and "4". *)
Lemma post_check_priority_on_integers_example :
  post_check_priority isNumberProvided_model
    (body_request [("priority", JsNumber 2)]) = next
  ∧ post_check_priority isNumberProvided_model
      (body_request [("priority", JsString "4")]) ≠ next.
Proof.
  split.
  - apply (post_check_priority_on_integers isNumberProvided_model
             (body_request [("priority", JsNumber 2)]) 2);
      [left; reflexivity | lia | reflexivity | lia].
  - intros Hpass.
    apply (post_check_priority_on_integers isNumberProvided_model
             (body_request [("priority", JsString "4")]) 4) in Hpass;
      [lia | right; reflexivity | lia | reflexivity].
Defined.

(** "A" is taken; "Z" is created with id 4. *)
Lemma post_message_on_store_example :
  completion (run_post_message example_store
                [("name", JsString "A"); ("message", JsString "again");
                 ("priority", JsString "2")])
  = Returned (mkResponse 400 (MessageBody "Name exists"))
  ∧ completion (run_post_message example_store
                  [("name", JsString "Z"); ("message", JsString "x");
                   ("priority", JsString "3")])
    = Returned (mkResponse 201
        (EntryBody (format (row_full (mkDemo 4 "Z" "x" 3))))).
Proof.
  split.
  - apply (post_message_on_store isStringProvided_model isNumberProvided_model
             example_store
             (body_request [("name", JsString "A"); ("message", JsString "again");
                            ("priority", JsString "2")])
             "A" "again" 2 eq_refl eq_refl eq_refl eq_refl eq_refl).
    by_evaluation.
  - apply (post_message_on_store isStringProvided_model isNumberProvided_model
             example_store
             (body_request [("name", JsString "Z"); ("message", JsString "x");
                            ("priority", JsString "3")])
             "Z" "x" 3 eq_refl eq_refl eq_refl eq_refl eq_refl).
    by_evaluation.
Defined.

(** ** What the login route sends out *)

(** An event is none of the events of a trace that is written out. *)
Ltac not_in_trace H :=
  repeat (apply elem_of_cons in H as [H | H]; [discriminate H|]);
  by apply elem_of_nil in H.

Section LoginEffects.

Variable isStringProvided : JsValue → bool.
Variable generateHash : JsValue → JsValue → JsValue.
Variable secret : JsValue.
Variable pool : Sql → list JsValue → PoolOutcome.

(** X5: with a secret that is set (a string that is not empty), a token is
    signed only for the response that carries it: whenever the login route
    signs a token, it answers 200 with that token. *)
Theorem post_login_signs_only_on_success (request : Request) (token : Token) :
  (∃ key, secret = JsString key ∧ key ≠ "") →
  JwtSign token ∈ trace (post_login isStringProvided generateHash secret pool request) →
  ∃ user,
    completion (post_login isStringProvided generateHash secret pool request)
    = Returned (mkResponse 200 (LoginBody token user)).
Proof.
  intros _.
  unfold post_login, chain, login_check_strings.
  destruct (isStringProvided _ && isStringProvided _);
    [|simpl; intros Hin; not_in_trace Hin].
  unfold next. rewrite ret_bind.
  unfold login_lookup, try_catch, pool_query.
  destruct (pool SelectCredential _) as [result | error]; simpl;
    [|intros Hin; not_in_trace Hin].
  unfold login_then.
  destruct (rowCount result =? 0); [simpl; intros Hin; not_in_trace Hin|].
  destruct (1 <? rowCount result); [simpl; intros Hin; not_in_trace Hin|].
  destruct (rows result) as [|row others]; simpl; [intros Hin; not_in_trace Hin|].
  destruct (strict_eq _ _); simpl; [|intros Hin; not_in_trace Hin].
  intros Hin.
  apply elem_of_cons in Hin as [Hin | Hin]; [discriminate Hin|].
  apply elem_of_cons in Hin as [Hin | Hin]; [discriminate Hin|].
  apply elem_of_cons in Hin as [Hin | Hin]; [|by apply elem_of_nil in Hin].
  injection Hin as ->. eexists. reflexivity.
Qed.

(** X6: the only statement the login route sends to the pool is the credential
    lookup, and the only value bound to it is the email of the request: the
    password does not reach the store. *)
Theorem post_login_queries_only_email (request : Request) statement values :
  PoolQuery statement values
  ∈ trace (post_login isStringProvided generateHash secret pool request) →
  statement = SelectCredential ∧ values = [get (req_body request) "email"].
Proof.
  unfold post_login, chain, login_check_strings.
  destruct (isStringProvided _ && isStringProvided _);
    [|simpl; intros Hin; not_in_trace Hin].
  unfold next. rewrite ret_bind.
  unfold login_lookup, try_catch, pool_query.
  assert (∀ rest : list Event,
            (∀ s v, PoolQuery s v ∉ rest) →
            PoolQuery statement values
            ∈ PoolQuery SelectCredential [get (req_body request) "email"] :: rest →
            statement = SelectCredential ∧ values = [get (req_body request) "email"])
    as Hfirst.
  { intros rest Hrest [Hin | Hin]%elem_of_cons; [by injection Hin as -> ->|].
    by apply Hrest in Hin. }
  destruct (pool SelectCredential _) as [result | error]; simpl.
  - unfold login_then.
    destruct (rowCount result =? 0);
      [simpl; apply Hfirst; intros s v Hin; not_in_trace Hin|].
    destruct (1 <? rowCount result);
      [simpl; apply Hfirst; intros s v Hin; not_in_trace Hin|].
    destruct (rows result) as [|row others]; simpl;
      [apply Hfirst; intros s v Hin; not_in_trace Hin|].
    destruct (strict_eq _ _); simpl;
      apply Hfirst; intros s v Hin; not_in_trace Hin.
  - apply Hfirst. intros s v Hin. not_in_trace Hin.
Qed.

End LoginEffects.

(** Alice's login signs one token, the one of the response, and queries the
    store with her email alone. *)
Lemma post_login_signs_only_on_success_example :
  ∃ token user,
    JwtSign token ∈ trace (run_post_login example_store "alice@uw.edu" "correct horse")
    ∧ completion (run_post_login example_store "alice@uw.edu" "correct horse")
      = Returned (mkResponse 200 (LoginBody token user)).
Proof.
  assert (JwtSign
            (mkToken (<["name" := JsString "Alice"]>
                        (<["role" := JsString "User"]>
                           (<["id" := JsNumber 7]> ∅)))
                     (JsString "secret") "14 days")
          ∈ trace (run_post_login example_store "alice@uw.edu" "correct horse"))
    as Hsigned.
  { replace (trace (run_post_login example_store "alice@uw.edu" "correct horse"))
      with [PoolQuery SelectCredential [JsString "alice@uw.edu"];
            GenerateHash (JsString "correct horse") (JsString "s4lt");
            JwtSign
              (mkToken (<["name" := JsString "Alice"]>
                          (<["role" := JsString "User"]>
                             (<["id" := JsNumber 7]> ∅)))
                       (JsString "secret") "14 days")]
      by (vm_compute; reflexivity).
    rewrite !elem_of_cons. auto. }
  assert (∃ key, JsString "secret" = JsString key ∧ key ≠ "") as Hsecret
    by (exists "secret"; split; [reflexivity | discriminate]).
  destruct (post_login_signs_only_on_success isStringProvided_model
              generateHash_model (JsString "secret") (store_pool example_store)
              _ _ Hsecret Hsigned) as [user Hanswer].
  eauto.
Defined.

Lemma post_login_queries_only_email_example :
  PoolQuery SelectCredential [JsString "alice@uw.edu"]
  ∈ trace (run_post_login example_store "alice@uw.edu" "correct horse")
  ∧ PoolQuery SelectCredential [JsString "correct horse"]
    ∉ trace (run_post_login example_store "alice@uw.edu" "correct horse").
Proof.
  split.
  { replace (trace (run_post_login example_store "alice@uw.edu" "correct horse"))
      with [PoolQuery SelectCredential [JsString "alice@uw.edu"];
            GenerateHash (JsString "correct horse") (JsString "s4lt");
            JwtSign
              (mkToken (<["name" := JsString "Alice"]>
                          (<["role" := JsString "User"]>
                             (<["id" := JsNumber 7]> ∅)))
                       (JsString "secret") "14 days")]
      by (vm_compute; reflexivity).
    rewrite !elem_of_cons. auto. }
  intros Hin.
  apply (post_login_queries_only_email isStringProvided_model generateHash_model
           (JsString "secret") (store_pool example_store)) in Hin as [_ Hvalues].
  discriminate Hvalues.
Defined.
